(** * server_mysql.py: item listing and annotation saving over the MySQL store

    A shallow embedding of the request handlers of [server_mysql.py] that
    talk to the store: [api_items] (GET /api/items) and [api_annotations]
    (POST /api/annotations), with the SQL they send, and beside them
    [api_login], [api_health] and the [_init] hook; and the properties the
    specification states about them.

    Conventions of the model.
    - A Python [str] and a MySQL string are a [string]: the bytes of its
      UTF-8 encoding.  String comparison inside the store ([=], [<>], the
      primary key, [ORDER BY]) is taken bytewise, i.e. with a binary
      collation.  Python's [strip] removes the white space of Unicode, which
      is told from these bytes.
    - A table is the list of its rows, in storage order.
    - The store answers each round trip (a connect or a statement) either
      with a failure or with success at some server time; what it answers is
      not decided by the program, so it is an input: the [script].
    - The arguments of a query string are strings.  A JSON body can hold a
      value of any JSON type wherever the handlers read one; such a value
      is given by what the handlers do with it ([get], [or], [bool], [str],
      [strip], binding it to a statement): see [json], [element], [body]
      and [login_data].  An operation that raises on a value is a step that
      raises in the model. *)

From Stdlib Require Import List String Ascii ZArith Lia Bool Arith.
From Stdlib Require Import Sorted Permutation DecimalString.
Import ListNotations.

Local Open Scope string_scope.
Local Open Scope Z_scope.

(* ------------------------------------------------------------------ *)
(** ** Python and SQL string primitives *)

Module Str.

(** The white space of [str.strip()] in the ASCII range: TAB, LF, VT, FF,
    CR, FS, GS, RS, US and the space. *)
Definition py_space (c : ascii) : bool :=
  let n := nat_of_ascii c in
  (((9 <=? n) && (n <=? 13)) || ((28 <=? n) && (n <=? 32)))%nat.

(** MySQL's [TRIM(x)] removes the space character only. *)
Definition sql_space (c : ascii) : bool := Ascii.eqb c " ".

Section Trim.
Variable blank : ascii -> bool.

Fixpoint ltrim (s : string) : string :=
  match s with
  | EmptyString => EmptyString
  | String c s' => if blank c then ltrim s' else s
  end.

Fixpoint rtrim (s : string) : string :=
  match s with
  | EmptyString => EmptyString
  | String c s' =>
      match rtrim s' with
      | EmptyString => if blank c then EmptyString else String c EmptyString
      | t => String c t
      end
  end.

Definition trim (s : string) : string := rtrim (ltrim s).

End Trim.

(** The white space of [str.strip()] beyond ASCII, in UTF-8: U+0085 and
    U+00A0 take two bytes; U+1680, U+2000 to U+200A, U+2028, U+2029, U+202F,
    U+205F and U+3000 take three. *)
Definition py_space2 (c d : ascii) : bool :=
  let a := nat_of_ascii c in
  let b := nat_of_ascii d in
  ((a =? 194) && ((b =? 133) || (b =? 160)))%nat.

Definition py_space3 (c d e : ascii) : bool :=
  let a := nat_of_ascii c in
  let b := nat_of_ascii d in
  let x := nat_of_ascii e in
  (((a =? 225) && (b =? 154) && (x =? 128))
   || ((a =? 226) && (b =? 128)
       && (((128 <=? x) && (x <=? 138)) || (x =? 168) || (x =? 169)
           || (x =? 175)))
   || ((a =? 226) && (b =? 129) && (x =? 159))
   || ((a =? 227) && (b =? 128) && (x =? 128)))%nat.

(** What follows the white-space character that [s] starts with, if it
    starts with one. *)
Definition space_prefix (s : string) : option string :=
  match s with
  | EmptyString => None
  | String c s1 =>
      if py_space c then Some s1
      else
        match s1 with
        | EmptyString => None
        | String d s2 =>
            if py_space2 c d then Some s2
            else
              match s2 with
              | EmptyString => None
              | String e s3 => if py_space3 c d e then Some s3 else None
              end
        end
  end.

(** [s.lstrip()] *)
Fixpoint lstrip (s : string) : string :=
  match s with
  | EmptyString => EmptyString
  | String c s1 =>
      if py_space c then lstrip s1
      else
        match s1 with
        | EmptyString => s
        | String d s2 =>
            if py_space2 c d then lstrip s2
            else
              match s2 with
              | EmptyString => s
              | String e s3 => if py_space3 c d e then lstrip s3 else s
              end
        end
  end.

(** Whether [s] is one white-space character and nothing else. *)
Definition one_space (s : string) : bool :=
  match space_prefix s with
  | Some EmptyString => true
  | _ => false
  end.

(** [s.rstrip()]: the tail is stripped first; what is left with the first
    byte in front is dropped when it is a single white-space character. *)
Fixpoint rstrip (s : string) : string :=
  match s with
  | EmptyString => EmptyString
  | String c s' =>
      if one_space (String c (rstrip s')) then EmptyString
      else String c (rstrip s')
  end.

(** [s.strip()] *)
Definition strip (s : string) : string := rstrip (lstrip s).

(** [TRIM(s)] *)
Definition TRIM : string -> string := trim sql_space.

Definition map_ascii (f : ascii -> ascii) : string -> string :=
  fix go (s : string) : string :=
    match s with
    | EmptyString => EmptyString
    | String c s' => String (f c) (go s')
    end.

Definition upper_ascii (c : ascii) : ascii :=
  let n := nat_of_ascii c in
  if ((97 <=? n) && (n <=? 122))%nat then ascii_of_nat (n - 32) else c.

Definition lower_ascii (c : ascii) : ascii :=
  let n := nat_of_ascii c in
  if ((65 <=? n) && (n <=? 90))%nat then ascii_of_nat (n + 32) else c.

(** [UPPER(s)] and [s.lower()], on the ASCII letters. *)
Definition UPPER : string -> string := map_ascii upper_ascii.
Definition lower : string -> string := map_ascii lower_ascii.

Definition is_empty (s : string) : bool :=
  match s with EmptyString => true | _ => false end.

Fixpoint has_slash (s : string) : bool :=
  match s with
  | EmptyString => false
  | String c s' => Ascii.eqb c "/" || has_slash s'
  end.

(** [os.path.basename] (POSIX flavour): what follows the last slash. *)
Fixpoint basename (p : string) : string :=
  match p with
  | EmptyString => EmptyString
  | String c rest =>
      if has_slash rest then basename rest
      else if Ascii.eqb c "/" then rest else p
  end.

(** [str(n)] for a natural number. *)
Definition of_nat (n : nat) : string :=
  NilEmpty.string_of_uint (Nat.to_uint n).

End Str.

(** Python's [x or d] where [x] is an optional string: [None] and [""] are
    both falsy. *)
Definition str_or (x : option string) (d : string) : string :=
  match x with
  | Some s => if Str.is_empty s then d else s
  | None => d
  end.

(* ------------------------------------------------------------------ *)
(** ** The persistent schema *)

(** A row of [full_table1]; the three columns the program reads.  All are
    nullable as far as the program is concerned: it guards each read. *)
Record item := mk_item {
  id_oid : option string;                  (* `id_$oid` *)
  stage_audio_path : option string;
  score_audio_input_text : option string
}.

(** A row of [output], as created by [ensure_output_table]: every column is
    NOT NULL, the primary key is (`id_$oid`, `username`). *)
Record annotation := mk_annotation {
  o_id_oid : string;                       (* `id_$oid` VARCHAR(32) *)
  o_username : string;                     (* VARCHAR(64) DEFAULT '' *)
  o_fix_text : string;                     (* TEXT *)
  o_confirmed : Z;                         (* TINYINT(1) *)
  o_timestamp : Z                          (* TIMESTAMP *)
}.

Record database := mk_database {
  full_table1 : list item;
  output : list annotation
}.

(** The primary key of [output]. *)
Definition same_key (oid username : string) (o : annotation) : bool :=
  String.eqb (o_id_oid o) oid && String.eqb (o_username o) username.

Definition keys (out : list annotation) : list (string * string) :=
  map (fun o => (o_id_oid o, o_username o)) out.

(** At most one row for each (item, user) pair. *)
Definition pk_unique (out : list annotation) : Prop := NoDup (keys out).

(* ------------------------------------------------------------------ *)
(** ** The store session: round trips, failures, the server clock *)

Inductive reply :=
| Refused                (* the connect or the statement raises *)
| Served (now : Z).      (* it succeeds; [now] is the server's NOW() *)

Definition script := nat -> reply.

Record session := mk_session {
  tables : database;
  trips : nat            (* round trips made so far *)
}.

Inductive outcome (A : Type) :=
| Done (a : A)
| Raised.
Arguments Done {A} a.
Arguments Raised {A}.

Definition store_m (A : Type) : Type := script -> session -> outcome A * session.

Definition ret {A} (a : A) : store_m A := fun _ s => (Done a, s).

Definition bind {A B} (m : store_m A) (k : A -> store_m B) : store_m B :=
  fun sc s =>
    match m sc s with
    | (Done a, s') => k a sc s'
    | (Raised, s') => (Raised, s')
    end.

(** [try: m except Exception: h] *)
Definition try_except {A} (m : store_m A) (h : store_m A) : store_m A :=
  fun sc s =>
    match m sc s with
    | (Done a, s') => (Done a, s')
    | (Raised, s') => h sc s'
    end.

Notation "x <- m ;; k" := (bind m (fun x => k))
  (at level 61, m at next level, right associativity).
Notation "m ;;; k" := (bind m (fun _ => k))
  (at level 61, right associativity).

(** One round trip to the server: it yields the server time, or raises. *)
Definition round_trip : store_m Z :=
  fun sc s =>
    let s' := mk_session (tables s) (S (trips s)) in
    match sc (trips s) with
    | Served now => (Done now, s')
    | Refused => (Raised, s')
    end.

(** [get_conn()]: autocommit is on, so every statement that succeeds is
    committed at once and nothing is undone when the connection closes. *)
Definition get_conn : store_m unit := round_trip ;;; ret tt.

Definition read_tables : store_m database := fun _ s => (Done (tables s), s).

Definition write_output (out : list annotation) : store_m unit :=
  fun _ s =>
    (Done tt, mk_session (mk_database (full_table1 (tables s)) out) (trips s)).

(** [ensure_output_table]: CREATE TABLE IF NOT EXISTS leaves the rows of an
    existing table alone; an absent table and an empty one are not told
    apart here. *)
Definition ensure_output_table : store_m unit :=
  get_conn ;;; round_trip ;;; ret tt.

(** [_init], run before every request: a failure is swallowed. *)
Definition _init : store_m unit :=
  try_except ensure_output_table (ret tt).

(* ------------------------------------------------------------------ *)
(** ** GET /api/items: the SELECT *)

(** A row of the result set: the five selected columns. *)
Record row := mk_row {
  r_id_oid : option string;
  r_stage_audio_path : option string;
  r_score_audio_input_text : option string;
  saved_fix_text : option string;
  saved_confirmed : option Z
}.

(** [x.`id_$oid` = f.`id_$oid`]: never true on a NULL. *)
Definition oid_matches (fid : option string) (oid : string) : bool :=
  match fid with
  | Some x => String.eqb oid x
  | None => false
  end.

(** The rows of [output] that [o_user] joins to [f]:
    [o_user.`id_$oid` = f.`id_$oid` AND o_user.`username` = %s]. *)
Definition o_user (out : list annotation) (username : string) (f : item)
  : list annotation :=
  filter (fun o => oid_matches (id_oid f) (o_id_oid o)
                   && String.eqb (o_username o) username) out.

(** [COALESCE(o_cnt.cnt, 0)]: the COUNT( * ) of the group of [output] with
    this identifier, 0 when there is no such group. *)
Definition o_cnt (out : list annotation) (fid : option string) : nat :=
  List.length (filter (fun o => oid_matches fid (o_id_oid o)) out).

(** LEFT JOIN: one result row per matching row, or one padded with NULLs. *)
Definition left_join (f : item) (matches : list annotation) : list row :=
  match matches with
  | [] => [mk_row (id_oid f) (stage_audio_path f) (score_audio_input_text f)
                  None None]
  | _ => map (fun o => mk_row (id_oid f) (stage_audio_path f)
                              (score_audio_input_text f)
                              (Some (o_fix_text o)) (Some (o_confirmed o)))
             matches
  end.

(** [text IS NOT NULL AND TRIM(text) <> '' AND UPPER(text) <> 'NONE'] *)
Definition usable_text (t : option string) : bool :=
  match t with
  | None => false
  | Some s => negb (Str.is_empty (Str.TRIM s))
              && negb (String.eqb (Str.UPPER s) "NONE")
  end.

(** [o_user.`confirmed` IS NULL OR o_user.`confirmed` <> 1] *)
Definition not_confirmed (r : row) : bool :=
  match saved_confirmed r with
  | None => true
  | Some c => negb (c =? 1)
  end.

Definition where_clause (out : list annotation) (hide_confirmed : bool)
  (r : row) : bool :=
  usable_text (r_score_audio_input_text r)
  && (o_cnt out (r_id_oid r) <? 3)%nat
  && (if hide_confirmed then not_confirmed r else true).

(** FROM ... LEFT JOIN ... WHERE ..., in the order of [full_table1]. *)
Definition from_where (db : database) (username : string)
  (hide_confirmed : bool) : list row :=
  flat_map (fun f => filter (where_clause (output db) hide_confirmed)
                            (left_join f (o_user (output db) username f)))
           (full_table1 db).

(** The order of [ORDER BY f.`id_$oid` ASC]: NULL sorts first. *)
Definition oid_le (a b : option string) : bool :=
  match a, b with
  | None, _ => true
  | Some _, None => false
  | Some x, Some y => String.leb x y
  end.

Fixpoint insert_row (r : row) (l : list row) : list row :=
  match l with
  | [] => [r]
  | x :: l' =>
      if oid_le (r_id_oid r) (r_id_oid x) then r :: l
      else x :: insert_row r l'
  end.

(** The sort keeps rows with the same identifier in their incoming order. *)
Definition order_by (l : list row) : list row :=
  fold_right insert_row [] l.

(** The rows the WHERE clause lets through, in the order of ORDER BY. *)
Definition eligible (db : database) (username : string)
  (hide_confirmed : bool) : list row :=
  order_by (from_where db username hide_confirmed).

(** Ascending identifiers, NULL first. *)
Definition ascending : list row -> Prop :=
  StronglySorted (fun r1 r2 => oid_le (r_id_oid r1) (r_id_oid r2) = true).

(** The whole statement, [LIMIT limit OFFSET offset] included. *)
Definition select_items (db : database) (username : string)
  (hide_confirmed : bool) (limit offset : Z) : list row :=
  firstn (Z.to_nat limit)
         (skipn (Z.to_nat offset) (eligible db username hide_confirmed)).

(* ------------------------------------------------------------------ *)
(** ** GET /api/items: the handler *)

(** What [int(request.args.get(k, d))] can meet: no such argument, an
    argument that reads as an integer, or one that does not. *)
Inductive int_arg :=
| ArgAbsent
| ArgInt (z : Z)
| ArgNotInt.

Definition int_of_arg (a : int_arg) (default : Z) : option Z :=
  match a with
  | ArgAbsent => Some default
  | ArgInt z => Some z
  | ArgNotInt => None
  end.

(** The query string of GET /api/items. *)
Record items_args := mk_items_args {
  arg_limit : int_arg;
  arg_offset : int_arg;
  arg_username : option string;
  arg_hideConfirmed : option string
}.

(** Lines 128-134: both defaults apply as soon as one argument does not
    read as an integer; then the clamps. *)
Definition parse_page (a : items_args) : Z * Z :=
  let (limit, offset) :=
    match int_of_arg (arg_limit a) 30, int_of_arg (arg_offset a) 0 with
    | Some l, Some o => (l, o)
    | _, _ => (30, 0)
    end in
  (Z.max 1 (Z.min limit 1000), Z.max 0 offset).

Definition page_limit (a : items_args) : Z := fst (parse_page a).
Definition page_offset (a : items_args) : Z := snd (parse_page a).

(** Line 137. *)
Definition parse_username (a : items_args) : string :=
  Str.strip (str_or (arg_username a) "").

(** Line 138. *)
Definition parse_hide_confirmed (a : items_args) : bool :=
  let v := Str.lower (str_or (arg_hideConfirmed a) "0") in
  String.eqb v "1" || String.eqb v "true" || String.eqb v "yes".

(** An element of the JSON answer. *)
Record enriched_item := mk_enriched {
  e_id : string;
  e_id_oid : string;
  e_name : string;
  e_audio : string;
  e_stageAudioPath : string;
  e_inputText : string;
  e_fixText : string;
  e_confirmed : bool
}.

Definition asset_host : string :=
  "https://content-pic3.oss-cn-hangzhou.aliyuncs.com".

(** The placeholder name, the UTF-8 bytes of the two Chinese characters for
    "audio" followed by [#]. *)
Definition audio_label : string :=
  String (ascii_of_nat 233) (String (ascii_of_nat 159) (String (ascii_of_nat 179)
  (String (ascii_of_nat 233) (String (ascii_of_nat 162) (String (ascii_of_nat 145)
  "#"))))).

(** The body of the loop of lines 166-196, for the row [r] at position [i]
    of the page. *)
Definition enrich (i : nat) (r : row) : enriched_item :=
  let oid := match r_id_oid r with
             | Some x => x
             | None => Str.of_nat (i + 1)
             end in
  let stage_path := str_or (r_stage_audio_path r) "" in
  let audio_url := if Str.is_empty stage_path then ""
                   else asset_host ++ stage_path in
  let name := if Str.is_empty stage_path
              then audio_label ++ Str.of_nat (i + 1)
              else Str.basename stage_path in
  let input_text := str_or (r_score_audio_input_text r) "" in
  let fix_text := match saved_fix_text r with
                  | Some s => if Str.is_empty s then input_text else s
                  | None => input_text
                  end in
  let confirmed := match saved_confirmed r with
                   | Some c => negb (c =? 0)
                   | None => false
                   end in
  mk_enriched oid oid name audio_url stage_path input_text fix_text confirmed.

Fixpoint enrich_from (i : nat) (rows : list row) : list enriched_item :=
  match rows with
  | [] => []
  | r :: rest => enrich i r :: enrich_from (S i) rest
  end.

(** [for i, r in enumerate(rows)] *)
Definition enrich_all (rows : list row) : list enriched_item :=
  enrich_from 0 rows.

(** What a handler hands back to the HTTP layer. *)
Inductive response :=
| Items (items : list enriched_item)       (* 200, a JSON list *)
| Saved (saved : nat)                      (* 200, {"saved": n} *)
| Error (status : nat).                    (* {"error": ...} *)

(** [cur.execute(sql, (username,)); cur.fetchall() or []] *)
Definition execute_select (username : string) (hide_confirmed : bool)
  (limit offset : Z) : store_m (list row) :=
  round_trip ;;;
  db <- read_tables ;;
  ret (select_items db username hide_confirmed limit offset).

(** The try block of lines 156-160. *)
Definition fetch_rows (a : items_args) : store_m (list row) :=
  get_conn ;;;
  execute_select (parse_username a) (parse_hide_confirmed a)
                 (page_limit a) (page_offset a).

(** Lines 156-198: on any exception of the try block the handler answers
    with the empty list at once; otherwise it builds the answer from the
    rows. *)
Definition api_items (a : items_args) : store_m response :=
  fetched <- try_except (rows <- fetch_rows a ;; ret (Some rows)) (ret None) ;;
  match fetched with
  | None => ret (Items [])
  | Some rows => ret (Items (enrich_all rows))
  end.

(* ------------------------------------------------------------------ *)
(** ** JSON values as the handlers read them *)

(** A value read from a JSON body with [get]; a key that is absent and one
    that holds null both read as [None] and are not values here.  A string
    is given as such.  Any other value (a number, a boolean, an array, an
    object) is given by what the handlers can observe of it: its truth value
    [bool(v)], the text [str(v)], and the text the store receives when [v] is
    bound to a statement ([None] when the statement fails on it).  Such a
    value has neither [strip] nor [get]. *)
Inductive json :=
| JStr (s : string)
| JOther (truth : bool) (text : string) (bound : option string).

(** A JSON integer and a JSON boolean in this form. *)
Definition json_int (z : Z) : json :=
  let t := NilZero.string_of_int (Z.to_int z) in
  JOther (negb (z =? 0)) t (Some t).

Definition json_bool (b : bool) : json :=
  if b then JOther true "True" (Some "1") else JOther false "False" (Some "0").

(** [bool(v)] *)
Definition truthy (v : json) : bool :=
  match v with
  | JStr s => negb (Str.is_empty s)
  | JOther t _ _ => t
  end.

(** [x or d], [x] being the result of a [get]. *)
Definition py_or (x : option json) (d : json) : json :=
  match x with
  | Some v => if truthy v then v else d
  | None => d
  end.

(** [str(v)] *)
Definition py_str (v : json) : string :=
  match v with
  | JStr s => s
  | JOther _ t _ => t
  end.

(** [v.strip()]: an AttributeError ([None]) on what is not a string. *)
Definition strip_of (v : json) : option string :=
  match v with
  | JStr s => Some (Str.strip s)
  | JOther _ _ _ => None
  end.

(** The text the store receives for [v]. *)
Definition bound_text (v : json) : option string :=
  match v with
  | JStr s => Some s
  | JOther _ _ b => b
  end.

Definition raise {A} : store_m A := fun _ s => (Raised, s).

(** The value of an expression that may raise. *)
Definition attempt {A} (x : option A) : store_m A :=
  match x with
  | Some a => ret a
  | None => raise
  end.

(* ------------------------------------------------------------------ *)
(** ** POST /api/annotations *)

(** An object of ["items"], by the keys the handler reads. *)
Record entry := mk_entry {
  it_id : option json;                     (* "id" *)
  it_id_oid : option json;                 (* "id_$oid" *)
  it_fixText : option json;                (* "fixText" *)
  it_fix_text : option json;               (* "fix_text" *)
  it_username : option json;               (* "username" *)
  it_confirmed : option json               (* "confirmed" *)
}.

(** An element of ["items"]: an object, or a value without [get] (null, a
    number, a string, an array, a boolean). *)
Inductive element :=
| Obj (it : entry)
| NotObj.

(** A body whose ["items"] is a list. *)
Record payload := mk_payload {
  data_username : option json;
  data_items : list element
}.

(** What [request.get_json(silent=True) or {}] and then
    [data.get("items") or []] make of the request. *)
Inductive body :=
| NotAnObject                  (* a truthy JSON value that is no object *)
| ItemsNotAList                (* an object whose "items" is truthy and no list *)
| Batch (data : payload).      (* an object whose "items" is a list; a falsy or
                                  absent "items", a falsy or absent body: the
                                  list is empty *)

(** INSERT ... ON DUPLICATE KEY UPDATE on the primary key
    (`id_$oid`, `username`): the row that holds the key gets the new text,
    flag and time; without such a row a new one is stored. *)
Fixpoint upsert (oid username fix_text : string) (confirmed now : Z)
  (out : list annotation) : list annotation :=
  match out with
  | [] => [mk_annotation oid username fix_text confirmed now]
  | o :: rest =>
      if same_key oid username o
      then mk_annotation (o_id_oid o) (o_username o) fix_text confirmed now
           :: rest
      else o :: upsert oid username fix_text confirmed now rest
  end.

(** [cur.execute(sql, (oid, username, fix_text, confirmed))]; the statement
    fails when the store refuses it or when [fix_text] cannot be bound. *)
Definition execute_upsert (oid username : string) (fix_text : json)
  (confirmed : Z) : store_m unit :=
  now <- round_trip ;;
  text <- attempt (bound_text fix_text) ;;
  db <- read_tables ;;
  write_output (upsert oid username text confirmed now (output db)).

(** Line 238. *)
Definition entry_oid (it : entry) : string :=
  Str.strip (py_str (py_or (it_id it) (py_or (it_id_oid it) (JStr "")))).

(** Line 241. *)
Definition entry_fix_text (it : entry) : json :=
  py_or (it_fixText it) (py_or (it_fix_text it) (JStr "")).

(** Line 242; [None] when [strip] raises. *)
Definition entry_username (top_username : string) (it : entry)
  : option string :=
  strip_of (py_or (it_username it) (py_or (Some (JStr top_username)) (JStr ""))).

(** Line 243. *)
Definition entry_confirmed (it : entry) : Z :=
  match it_confirmed it with
  | Some v => if truthy v then 1 else 0
  | None => 0
  end.

(** [it.get]: an AttributeError on what is not an object. *)
Definition as_object (e : element) : option entry :=
  match e with
  | Obj it => Some it
  | NotObj => None
  end.

(** The loop of lines 237-245, [saved] being the count so far. *)
Fixpoint save_loop (top_username : string) (items : list element) (saved : nat)
  : store_m nat :=
  match items with
  | [] => ret saved
  | e :: rest =>
      it <- attempt (as_object e) ;;
      let oid := entry_oid it in
      if Str.is_empty oid then save_loop top_username rest saved
      else
        let fix_text := entry_fix_text it in
        username <- attempt (entry_username top_username it) ;;
        let confirmed := entry_confirmed it in
        execute_upsert oid username fix_text confirmed ;;;
        save_loop top_username rest (S saved)
  end.

(** Line 236; [None] when [strip] raises. *)
Definition top_username_of (data : payload) : option string :=
  strip_of (py_or (data_username data) (JStr "")).

(** Lines 220-249. *)
Definition api_annotations (b : body) : store_m response :=
  try_except
    match b with
    | NotAnObject => raise
    | ItemsNotAList => ret (Error 400)
    | Batch data =>
        ensure_output_table ;;;
        get_conn ;;;
        top_username <- attempt (top_username_of data) ;;
        saved <- save_loop top_username (data_items data) 0 ;;
        ret (Saved saved)
    end
    (ret (Error 500)).

(** A request as Flask dispatches it: [_init] first, then the view. *)
Inductive request :=
| GetItems (a : items_args)
| PostAnnotations (b : body).

Definition view (rq : request) : store_m response :=
  match rq with
  | GetItems a => api_items a
  | PostAnnotations b => api_annotations b
  end.

Definition serve (rq : request) : store_m response := _init ;;; view rq.

(** The number of distinct users that hold a row of [output] for [oid]. *)
Definition annotators (out : list annotation) (oid : string) : list string :=
  nodup string_dec
        (map o_username (filter (fun o => String.eqb (o_id_oid o) oid) out)).

Definition cross_user_count (out : list annotation) (oid : string) : nat :=
  List.length (annotators out oid).

(** The server time of round trip [k] (0 where the script fails). *)
Definition time_at (sc : script) (k : nat) : Z :=
  match sc k with
  | Served now => now
  | Refused => 0
  end.

(** Line 239: the entry is not passed over when its trimmed identifier is
    not empty. *)
Definition has_oid (it : entry) : bool := negb (Str.is_empty (entry_oid it)).

(** What one turn of the loop comes to for an element: it is passed over,
    or a statement is sent with these values, or the turn raises before any
    statement ([Fails false]) or on the statement, whatever the store
    ([Fails true]). *)
Inductive plan :=
| Skips
| Writes (oid username fix_text : string) (confirmed : Z)
| Fails (sent : bool).

Definition plan_of (top_username : string) (e : element) : plan :=
  match e with
  | NotObj => Fails false
  | Obj it =>
      if has_oid it then
        match entry_username top_username it with
        | None => Fails false
        | Some username =>
            match bound_text (entry_fix_text it) with
            | None => Fails true
            | Some text =>
                Writes (entry_oid it) username text (entry_confirmed it)
            end
        end
      else Skips
  end.

(** The element is one the loop writes a row for, the store willing. *)
Definition written (top_username : string) (e : element) : bool :=
  match plan_of top_username e with
  | Writes _ _ _ _ => true
  | _ => false
  end.

(** The element does not make the loop raise by itself. *)
Definition sound (top_username : string) (e : element) : bool :=
  match plan_of top_username e with
  | Fails _ => false
  | _ => true
  end.

(** The table after each written element of [items] has been upserted in
    turn, the first at the time of round trip [n], the next at that of
    [n + 1], and so on. *)
Fixpoint commit_all (sc : script) (n : nat) (top_username : string)
  (items : list element) (out : list annotation) : list annotation :=
  match items with
  | [] => out
  | e :: rest =>
      match plan_of top_username e with
      | Writes oid username text confirmed =>
          commit_all sc (S n) top_username rest
            (upsert oid username text confirmed (time_at sc n) out)
      | _ => commit_all sc n top_username rest out
      end
  end.

(** The number of elements of a batch that the loop writes a row for. *)
Definition count_written (top : string) (items : list element) : nat :=
  List.length (filter (written top) items).

(** The script answers every round trip from [n] up to [m], excluded. *)
Definition healthy_between (sc : script) (n m : nat) : Prop :=
  forall k, (n <= k < m)%nat -> sc k <> Refused.

(** A row of [output] without its timestamp. *)
Definition untimed (o : annotation) : string * string * string * Z :=
  (o_id_oid o, o_username o, o_fix_text o, o_confirmed o).

(** The row [o] with the timestamp [now] when it holds the key, as it
    is otherwise. *)
Definition touch (oid username : string) (now : Z) (o : annotation)
  : annotation :=
  if same_key oid username o
  then mk_annotation (o_id_oid o) (o_username o) (o_fix_text o)
                     (o_confirmed o) now
  else o.

(** The element is an object with a non-empty trimmed identifier. *)
Definition identified (e : element) : bool :=
  match e with
  | Obj it => has_oid it
  | NotObj => false
  end.

(** A user field that is absent, falsy or made of white space only. *)
Definition blank_field (v : option json) : Prop :=
  strip_of (py_or v (JStr "")) = Some "".

(* ------------------------------------------------------------------ *)
(** ** Sample data *)

Definition always (now : Z) : script := fun _ => Served now.
Definition never : script := fun _ => Refused.

Definition item42 : item := mk_item (Some "42") (Some "/clips/42.wav") (Some "hello").

Definition note (oid username fix_text : string) (confirmed : Z) : annotation :=
  mk_annotation oid username fix_text confirmed 1000.

(** Item 42 with no annotation yet. *)
Definition fresh_db : database := mk_database [item42] [].

(** Item 42 after alice, bob and carol have each saved a row. *)
Definition full_db : database :=
  mk_database [item42]
    [note "42" "alice" "Hello." 1; note "42" "bob" "hello!" 0;
     note "42" "carol" "Hello" 1].

Definition list_for (username : option string) : items_args :=
  mk_items_args ArgAbsent ArgAbsent username None.

(** A JSON string under a key, the JSON [true] under a key. *)
Definition str (s : string) : option json := Some (JStr s).
Definition yes : option json := Some (json_bool true).

(** U+00A0 and U+3000 in UTF-8. *)
Definition nbsp : string :=
  String (ascii_of_nat 194) (String (ascii_of_nat 160) "").
Definition wide_space : string :=
  String (ascii_of_nat 227) (String (ascii_of_nat 128)
    (String (ascii_of_nat 128) "")).

(** Three entries of a batch: one whose identifier is blank, one of alice
    for item 42, one for item 43 that names no user of its own. *)
Definition blank_entry : entry :=
  mk_entry (str (" " ++ nbsp ++ " ")) None (str "lost") None (str "alice") yes.

Definition alice_entry : entry :=
  mk_entry (str "42") None (str "Hello.") None (str "alice") yes.

Definition plain_entry : entry :=
  mk_entry None (str " 43 ") None (str "hi") None None.

(** The store answers every round trip at time [now], but for round trip
    [k], which it refuses. *)
Definition fails_at (k : nat) (now : Z) : script :=
  fun n => if Nat.eqb n k then Refused else Served now.

(** Item 42 after alice and bob, and nobody else, have saved a row. *)
Definition two_db : database :=
  mk_database [item42]
    [note "42" "alice" "Hello." 1; note "42" "bob" "hello!" 0].

(** An entry for item 42 whose user is blank. *)
Definition userless_entry : entry :=
  mk_entry (str "42") None (str "Hello.") None (str "  ") yes.

(** The same with U+3000 and U+00A0 for the blanks of the user. *)
Definition wide_userless_entry : entry :=
  mk_entry (str "42") None (str "Hello.") None (str (wide_space ++ nbsp)) yes.


(** Items 1, 2 and 3, none annotated. *)
Definition three_db : database :=
  mk_database
    [mk_item (Some "2") None (Some "two"); mk_item (Some "1") None (Some "one");
     mk_item (Some "3") None (Some "three")] [].

(** [n] items, numbered from 1001, none annotated. *)
Definition numbered_db (n : nat) : database :=
  mk_database
    (map (fun i => mk_item (Some (Str.of_nat i)) None (Some "hello"))
         (seq 1001 n))
    [].

(** The page that a client asks for with [limit] and [offset]. *)
Definition page_of (username hideConfirmed : option string) (limit offset : Z)
  : items_args :=
  mk_items_args (ArgInt limit) (ArgInt offset) username hideConfirmed.

Definition count_items (r : outcome response) : nat :=
  match r with
  | Done (Items l) => List.length l
  | _ => 0%nat
  end.

(* ------------------------------------------------------------------ *)
(** ** POST /api/login and GET /api/health *)

(** A row of [login].  The program only reads this table, so it is kept
    beside the [database] the handlers write to. *)
Record credential := mk_credential {
  l_username : string;
  l_password : string
}.

(** The password of a login request, which the handler uses as it comes.
    A string is compared with the column as text.  Any other JSON value is
    compared by the store under its own conversion rules, which the model
    leaves open: such a value carries its truth value and what the query
    finds for it ([None]: the statement fails). *)
Inductive secret :=
| Secret (s : string)
| Opaque (truth : bool) (found : option bool).

Definition secret_truthy (v : secret) : bool :=
  match v with
  | Secret s => negb (Str.is_empty s)
  | Opaque t _ => t
  end.

(** [data.get("password") or ""]. *)
Definition secret_or_empty (x : option secret) : secret :=
  match x with
  | Some v => if secret_truthy v then v else Secret ""
  | None => Secret ""
  end.

(** What [request.get_json(silent=True) or request.form or {}] makes of the
    request: a truthy JSON value that is no object, or the two keys the
    handler reads, from the JSON object or else from the form (whose values
    are strings). *)
Inductive login_data :=
| LoginNotObject
| LoginFields (username : option json) (password : option secret).

Inductive login_response :=
| LoginOk                                  (* 200, {"ok": true} *)
| LoginError (status : nat).               (* 400, 401 or 500 *)

(** [SELECT 1 AS ok FROM login WHERE username=%s AND password=%s LIMIT 1]
    followed by [fetchone()]: whether there is such a row. *)
Definition execute_login (login : list credential) (username : string)
  (password : secret) : store_m bool :=
  round_trip ;;;
  match password with
  | Secret text =>
      ret (existsb (fun c => String.eqb (l_username c) username
                             && String.eqb (l_password c) text) login)
  | Opaque _ found => attempt found
  end.

(** Lines 102-121: the two fields are read before the [try]. *)
Definition api_login (login : list credential) (data : login_data)
  : store_m login_response :=
  match data with
  | LoginNotObject => raise
  | LoginFields u p =>
      username <- attempt (strip_of (py_or u (JStr ""))) ;;
      let password := secret_or_empty p in
      if Str.is_empty username || negb (secret_truthy password)
      then ret (LoginError 400)
      else
        try_except
          (get_conn ;;;
           row <- execute_login login username password ;;
           ret (if row then LoginOk else LoginError 401))
          (ret (LoginError 500))
  end.

(** Lines 253-261: [true] stands for the answer {"ok": true}, [false] for
    the 500 answer. *)
Definition api_health : store_m bool :=
  try_except (get_conn ;;; round_trip ;;; ret true) (ret false).

(** The routes that talk to the store. *)
Inductive route :=
| Login (data : login_data)
| ListItems (a : items_args)
| Annotate (b : body)
| Health.

Inductive answer :=
| LoginAnswer (r : login_response)
| ViewAnswer (r : response)
| HealthAnswer (ok : bool).

(** A request on any of these routes: [_init] first, then the view. *)
Definition dispatch (login : list credential) (rt : route) : store_m answer :=
  _init ;;;
  match rt with
  | Login data => r <- api_login login data ;; ret (LoginAnswer r)
  | ListItems a => r <- api_items a ;; ret (ViewAnswer r)
  | Annotate b => r <- api_annotations b ;; ret (ViewAnswer r)
  | Health => ok <- api_health ;; ret (HealthAnswer ok)
  end.

(** The login reads a field that makes it raise before its [try]. *)
Definition login_raises (data : login_data) : bool :=
  match data with
  | LoginNotObject => true
  | LoginFields u _ =>
      match strip_of (py_or u (JStr "")) with
      | None => true
      | Some _ => false
      end
  end.

(* ------------------------------------------------------------------ *)
(** ** Vocabulary of the further properties *)

(** The (item, user) keys that the written elements of a batch are
    written under. *)
Fixpoint written_keys (top_username : string) (items : list element)
  : list (string * string) :=
  match items with
  | [] => []
  | e :: rest =>
      match plan_of top_username e with
      | Writes oid username _ _ =>
          (oid, username) :: written_keys top_username rest
      | _ => written_keys top_username rest
      end
  end.

(** The [full_table1] columns of a result row. *)
Definition item_of_row (r : row) : item :=
  mk_item (r_id_oid r) (r_stage_audio_path r) (r_score_audio_input_text r).

(** Whether the user's row for [f], if any, is confirmed with the value 1. *)
Definition own_confirmed (out : list annotation) (username : string) (f : item)
  : bool :=
  existsb (fun o => o_confirmed o =? 1) (o_user out username f).

(** The items that the filters of the listing let through. *)
Definition keep_item (out : list annotation) (username : string)
  (hide_confirmed : bool) (f : item) : bool :=
  usable_text (score_audio_input_text f)
  && (o_cnt out (id_oid f) <? 3)%nat
  && (if hide_confirmed then negb (own_confirmed out username f) else true).

(** Rows as the save operation writes them: a non-empty identifier and a
    confirmed flag that is 0 or 1. *)
Definition written_row (o : annotation) : Prop :=
  o_id_oid o <> "" /\ (o_confirmed o = 0 \/ o_confirmed o = 1).

(** The items of the answer to a listing. *)
Definition listed (a : items_args) (sc : script) (s : session)
  : list enriched_item :=
  match fst (api_items a sc s) with
  | Done (Items l) => l
  | _ => []
  end.

(** An item as it is shown without any saved state. *)
Definition plain (e : enriched_item) : Prop :=
  e_fixText e = e_inputText e /\ e_confirmed e = false.

(** An item as it is shown with the saved state of the row [o]. *)
Definition shows (o : annotation) (e : enriched_item) : Prop :=
  e_id e = o_id_oid o /\
  e_fixText e = (if Str.is_empty (o_fix_text o) then e_inputText e
                 else o_fix_text o) /\
  e_confirmed e = negb (o_confirmed o =? 0).

(** The result row of the SELECT for item [f] joined to the user's row
    [o]. *)
Definition joined (f : item) (o : annotation) : row :=
  mk_row (id_oid f) (stage_audio_path f) (score_audio_input_text f)
         (Some (o_fix_text o)) (Some (o_confirmed o)).

(* ------------------------------------------------------------------ *)
(** * Properties *)

(** ** The session monad on the handlers *)

Ltac run_store :=
  unfold serve, view, _init, api_items, api_annotations, fetch_rows, execute_select,
    execute_upsert, execute_login, ensure_output_table, get_conn, try_except,
    attempt, raise, bind, ret, read_tables, write_output, round_trip; simpl.

Lemma fetch_rows_eq (a : items_args) (sc : script) (s : session) :
  fetch_rows a sc s =
  match sc (trips s) with
  | Refused => (Raised, mk_session (tables s) (S (trips s)))
  | Served _ =>
      match sc (S (trips s)) with
      | Refused => (Raised, mk_session (tables s) (S (S (trips s))))
      | Served _ =>
          (Done (select_items (tables s) (parse_username a)
                   (parse_hide_confirmed a) (page_limit a) (page_offset a)),
           mk_session (tables s) (S (S (trips s))))
      end
  end.
Proof.
  run_store.
  destruct (sc (trips s)); simpl; [reflexivity|].
  destruct (sc (S (trips s))); reflexivity.
Qed.

Lemma api_items_eq (a : items_args) (sc : script) (s : session) :
  api_items a sc s =
  match fetch_rows a sc s with
  | (Done rows, s') => (Done (Items (enrich_all rows)), s')
  | (Raised, s') => (Done (Items []), s')
  end.
Proof.
  unfold api_items, try_except, bind, ret.
  destruct (fetch_rows a sc s) as [[rows|] s']; reflexivity.
Qed.

Lemma fetch_rows_tables (a : items_args) (sc : script) (s : session) :
  tables (snd (fetch_rows a sc s)) = tables s.
Proof.
  rewrite fetch_rows_eq.
  destruct (sc (trips s)); [reflexivity|].
  destruct (sc (S (trips s))); reflexivity.
Qed.

Lemma api_items_tables (a : items_args) (sc : script) (s : session) :
  tables (snd (api_items a sc s)) = tables s.
Proof.
  rewrite api_items_eq.
  pose proof (fetch_rows_tables a sc s) as H.
  destruct (fetch_rows a sc s) as [[rows|] s']; exact H.
Qed.

(** ** Paging and ordering lemmas *)

Lemma in_firstn {A} (x : A) : forall n l, In x (firstn n l) -> In x l.
Proof.
  induction n as [|n IH]; intros [|y l] H; simpl in *; try contradiction.
  destruct H as [H|H]; [left; exact H | right; apply IH; exact H].
Qed.

Lemma in_skipn {A} (x : A) : forall n l, In x (skipn n l) -> In x l.
Proof.
  induction n as [|n IH]; intros [|y l] H; simpl in *; try contradiction;
    try exact H.
  right; apply IH; exact H.
Qed.

Lemma insert_row_perm (r : row) (l : list row) :
  Permutation (r :: l) (insert_row r l).
Proof.
  induction l as [|x l IH]; simpl; [reflexivity|].
  destruct (oid_le (r_id_oid r) (r_id_oid x)); [reflexivity|].
  rewrite perm_swap. apply perm_skip. exact IH.
Qed.

Lemma order_by_perm (l : list row) : Permutation l (order_by l).
Proof.
  induction l as [|x l IH]; simpl; [constructor|].
  rewrite <- insert_row_perm. apply perm_skip. exact IH.
Qed.

Lemma in_from_where (db : database) (u : string) (hide : bool) (r : row) :
  In r (from_where db u hide) ->
  where_clause (output db) hide r = true /\
  exists f, In f (full_table1 db) /\ In r (left_join f (o_user (output db) u f)).
Proof.
  unfold from_where. rewrite in_flat_map. intros [f [Hf Hr]].
  apply filter_In in Hr. destruct Hr as [Hr Hw].
  split; [exact Hw | exists f; split; assumption].
Qed.

Lemma in_select_items (db : database) (u : string) (hide : bool)
  (limit offset : Z) (r : row) :
  In r (select_items db u hide limit offset) -> In r (from_where db u hide).
Proof.
  unfold select_items, eligible. intros H.
  apply in_firstn, in_skipn in H.
  eapply Permutation_in; [symmetry; apply order_by_perm | exact H].
Qed.

(** COUNT( * ) of the group is at least the number of distinct users. *)
Lemma cross_user_count_le_o_cnt (out : list annotation) (oid : string) :
  (cross_user_count out oid <= o_cnt out (Some oid))%nat.
Proof.
  unfold cross_user_count, annotators, o_cnt. simpl.
  set (l := filter (fun o => String.eqb (o_id_oid o) oid) out).
  rewrite <- (length_map o_username l).
  apply NoDup_incl_length; [apply NoDup_nodup|].
  intros x Hx. apply nodup_In in Hx. exact Hx.
Qed.

(** What the listing fetches is under the quota. *)
Lemma fetched_below_quota (a : items_args) (sc : script) (s : session)
  (rows : list row) (r : row) (oid : string) :
  fst (fetch_rows a sc s) = Done rows -> In r rows -> r_id_oid r = Some oid ->
  (cross_user_count (output (tables s)) oid < 3)%nat.
Proof.
  intros E Hr Hid. rewrite fetch_rows_eq in E.
  destruct (sc (trips s)); [discriminate|].
  destruct (sc (S (trips s))); [discriminate|].
  simpl in E. injection E as <-.
  apply in_select_items, in_from_where in Hr. destruct Hr as [Hw _].
  unfold where_clause in Hw.
  apply andb_prop in Hw. destruct Hw as [Hw _].
  apply andb_prop in Hw. destruct Hw as [_ Hlt].
  apply Nat.ltb_lt in Hlt. rewrite Hid in Hlt.
  pose proof (cross_user_count_le_o_cnt (output (tables s)) oid). lia.
Qed.

(* ------------------------------------------------------------------ *)
(** ** The quota *)

(** C1: for every requesting user (the anonymous one too), every page and
    every item identifier that at least 3 distinct users hold a row of
    [output] for, the listing answers with the rows it fetched (or with
    nothing when the fetch failed) and none of these rows is that item. *)
Theorem quota_excludes_item (a : items_args) (sc : script) (s : session)
  (oid : string) :
  (3 <= cross_user_count (output (tables s)) oid)%nat ->
  match fst (fetch_rows a sc s) with
  | Done rows =>
      fst (api_items a sc s) = Done (Items (enrich_all rows)) /\
      forall r, In r rows -> r_id_oid r <> Some oid
  | Raised => fst (api_items a sc s) = Done (Items [])
  end.
Proof.
  intros Hcnt. rewrite api_items_eq.
  destruct (fetch_rows a sc s) as [[rows|] s'] eqn:E; simpl; [|reflexivity].
  split; [reflexivity|].
  intros r Hr Hid.
  assert (E' : fst (fetch_rows a sc s) = Done rows) by (rewrite E; reflexivity).
  pose proof (fetched_below_quota a sc s rows r oid E' Hr Hid). lia.
Qed.

Lemma quota_excludes_item_witness :
  (3 <= cross_user_count (output full_db) "42")%nat /\
  fst (api_items (list_for (Some "dave")) (always 5) (mk_session full_db 0))
  = Done (Items []).
Proof.
  split; [vm_compute; lia|].
  pose proof (quota_excludes_item (list_for (Some "dave")) (always 5)
                (mk_session full_db 0) "42") as H.
  simpl in H.
  destruct H as [H _]; [vm_compute; lia|].
  exact H.
Defined.

(* ------------------------------------------------------------------ *)
(** ** Failure of the listing query *)

(** C7: when the connect or the SELECT of the listing fails, the handler
    answers with the empty list instead of raising, and the tables are what
    they were. *)
Theorem listing_degrades_to_empty (a : items_args) (sc : script) (s : session) :
  sc (trips s) = Refused \/ sc (S (trips s)) = Refused ->
  fst (api_items a sc s) = Done (Items []) /\
  tables (snd (api_items a sc s)) = tables s.
Proof.
  intros H. split; [|apply api_items_tables].
  rewrite api_items_eq, fetch_rows_eq.
  destruct (sc (trips s)) eqn:E0; [reflexivity|].
  destruct (sc (S (trips s))) eqn:E1; [reflexivity|].
  destruct H; discriminate.
Qed.

Lemma listing_degrades_to_empty_witness :
  fst (api_items (list_for (Some "alice")) never (mk_session fresh_db 0))
  = Done (Items []) /\
  tables (snd (api_items (list_for (Some "alice")) never
                 (mk_session fresh_db 0))) = fresh_db.
Proof.
  apply (listing_degrades_to_empty (list_for (Some "alice")) never
           (mk_session fresh_db 0)).
  left; reflexivity.
Defined.

(* ------------------------------------------------------------------ *)
(** ** The upsert and the primary key *)

Lemma same_key_true (oid u : string) (o : annotation) :
  same_key oid u o = true <-> (o_id_oid o, o_username o) = (oid, u).
Proof.
  unfold same_key. rewrite andb_true_iff, !String.eqb_eq.
  split; [intros [-> ->]; reflexivity | intros H; injection H; auto].
Qed.

Lemma existsb_same_key (oid u : string) (out : list annotation) :
  existsb (same_key oid u) out = true <-> In (oid, u) (keys out).
Proof.
  unfold keys. rewrite existsb_exists, in_map_iff.
  split; intros [o [H1 H2]]; exists o.
  - apply same_key_true in H2. split; assumption.
  - split; [exact H2 | apply same_key_true; exact H1].
Qed.

(** Replace on conflict: the keys of the table are the same after the
    write. *)
Lemma upsert_keys_present (oid u fx : string) (c now : Z)
  (out : list annotation) :
  In (oid, u) (keys out) -> keys (upsert oid u fx c now out) = keys out.
Proof.
  induction out as [|o out IH]; simpl; [contradiction|].
  intros H. destruct (same_key oid u o) eqn:E; simpl; [reflexivity|].
  f_equal. apply IH. destruct H as [H|H]; [|exact H].
  apply same_key_true in H. congruence.
Qed.

(** No conflict: one key more, the new one. *)
Lemma upsert_keys_absent (oid u fx : string) (c now : Z)
  (out : list annotation) :
  ~ In (oid, u) (keys out) ->
  keys (upsert oid u fx c now out) = (keys out ++ [(oid, u)])%list.
Proof.
  induction out as [|o out IH]; simpl; [reflexivity|].
  intros H. destruct (same_key oid u o) eqn:E; simpl.
  - apply same_key_true in E. exfalso. apply H. left. exact E.
  - f_equal. apply IH. intros Hin. apply H. right. exact Hin.
Qed.

Lemma in_keys_dec (k : string * string) (l : list (string * string)) :
  {In k l} + {~ In k l}.
Proof.
  apply in_dec. intros [a b] [a' b'].
  destruct (string_dec a a'); destruct (string_dec b b');
    try (right; congruence). left; congruence.
Qed.

Lemma upsert_pk_unique (oid u fx : string) (c now : Z)
  (out : list annotation) :
  pk_unique out -> pk_unique (upsert oid u fx c now out).
Proof.
  unfold pk_unique. intros H.
  destruct (in_keys_dec (oid, u) (keys out)) as [Hin|Hout].
  - rewrite upsert_keys_present; assumption.
  - rewrite upsert_keys_absent by assumption.
    apply NoDup_app; [exact H | repeat constructor; intros [] | ].
    intros k Hk [<-|[]]. contradiction.
Qed.

Lemma upsert_has_key (oid u fx : string) (c now : Z) (out : list annotation) :
  In (oid, u) (keys (upsert oid u fx c now out)).
Proof.
  destruct (in_keys_dec (oid, u) (keys out)) as [Hin|Hout].
  - rewrite upsert_keys_present; assumption.
  - rewrite upsert_keys_absent by assumption. apply in_or_app. right. now left.
Qed.

Lemma upsert_keeps_key (k : string * string) (oid u fx : string) (c now : Z)
  (out : list annotation) :
  In k (keys out) -> In k (keys (upsert oid u fx c now out)).
Proof.
  intros H. destruct (in_keys_dec (oid, u) (keys out)) as [Hin|Hout].
  - rewrite upsert_keys_present; assumption.
  - rewrite upsert_keys_absent by assumption. apply in_or_app. now left.
Qed.

Lemma commit_all_keeps_key (k : string * string) (sc : script) (top : string)
  (items : list element) :
  forall n out, In k (keys out) -> In k (keys (commit_all sc n top items out)).
Proof.
  induction items as [|e items IH]; intros n out H; simpl; [exact H|].
  destruct (plan_of top e); try (apply IH; exact H).
  apply IH, upsert_keeps_key, H.
Qed.

(** ** The loop of the save operation *)

(** One turn of the loop, by the plan of its element. *)
Lemma save_loop_step (top : string) (e : element) (rest : list element)
  (saved : nat) (sc : script) (s : session) :
  save_loop top (e :: rest) saved sc s =
  match plan_of top e with
  | Skips => save_loop top rest saved sc s
  | Fails false => (Raised, s)
  | Fails true => (Raised, mk_session (tables s) (S (trips s)))
  | Writes oid username text confirmed =>
      match sc (trips s) with
      | Refused => (Raised, mk_session (tables s) (S (trips s)))
      | Served now =>
          save_loop top rest (S saved) sc
            (mk_session
               (mk_database (full_table1 (tables s))
                  (upsert oid username text confirmed now (output (tables s))))
               (S (trips s)))
      end
  end.
Proof.
  destruct e as [it|]; [|reflexivity].
  unfold plan_of, has_oid. simpl.
  unfold bind at 1. simpl.
  destruct (Str.is_empty (entry_oid it)); simpl; [reflexivity|].
  unfold bind at 1.
  destruct (entry_username top it) as [u|]; simpl; [|reflexivity].
  run_store.
  destruct (bound_text (entry_fix_text it)) as [t|];
    destruct (sc (trips s)); reflexivity.
Qed.

Lemma save_loop_app (top : string) (pre rest : list element) (sc : script) :
  forall saved s,
  save_loop top (pre ++ rest) saved sc s =
  match save_loop top pre saved sc s with
  | (Done n, s') => save_loop top rest n sc s'
  | (Raised, s') => (Raised, s')
  end.
Proof.
  induction pre as [|e pre IH]; intros saved s; [reflexivity|].
  rewrite <- app_comm_cons, !save_loop_step.
  destruct (plan_of top e) as [| |[|]]; try reflexivity; [apply IH|].
  destruct (sc (trips s)); [reflexivity | apply IH].
Qed.

Lemma save_loop_healthy (top : string) (items : list element) (sc : script) :
  forall saved s,
  forallb (sound top) items = true ->
  healthy_between sc (trips s) (trips s + count_written top items) ->
  save_loop top items saved sc s =
  (Done (saved + count_written top items)%nat,
   mk_session
     (mk_database (full_table1 (tables s))
        (commit_all sc (trips s) top items (output (tables s))))
     (trips s + count_written top items)).
Proof.
  unfold count_written.
  induction items as [|e items IH]; intros saved s Hs H.
  - simpl. unfold ret. rewrite !Nat.add_0_r.
    destruct s as [[ft out] n]; reflexivity.
  - rewrite save_loop_step. simpl in Hs, H |- *.
    apply andb_prop in Hs. destruct Hs as [He Hs].
    unfold sound in He. unfold written in *.
    destruct (plan_of top e) as [|oid u t c|b]; [| |discriminate].
    + apply IH; assumption.
    + simpl in H |- *. unfold time_at.
      destruct (sc (trips s)) eqn:Es.
      * exfalso. apply (H (trips s)); [lia | exact Es].
      * rewrite IH; [|exact Hs|simpl; intros k Hk; apply H; lia].
        simpl. f_equal; [f_equal; lia | f_equal; lia].
Qed.

(** An invariant of the writes is an invariant of the loop. *)
Lemma save_loop_invariant (P : list annotation -> Prop) (top : string)
  (items : list element) (sc : script) :
  (forall e oid u t c now out, In e items ->
     plan_of top e = Writes oid u t c -> P out ->
     P (upsert oid u t c now out)) ->
  forall saved s,
  P (output (tables s)) ->
  P (output (tables (snd (save_loop top items saved sc s)))).
Proof.
  induction items as [|e items IH]; intros Hstep saved s H; [exact H|].
  rewrite save_loop_step.
  destruct (plan_of top e) as [|oid u t c|[|]] eqn:E; try exact H.
  - apply IH; [|exact H]. intros; eapply Hstep; eauto. now right.
  - destruct (sc (trips s)); [exact H|].
    apply IH; [intros; eapply Hstep; eauto; now right|].
    simpl. eapply Hstep; [now left | exact E | exact H].
Qed.

(** The handler on a batch, in terms of its loop. *)
Lemma api_annotations_eq (data : payload) (sc : script) (s : session) :
  api_annotations (Batch data) sc s =
  match sc (trips s) with
  | Refused => (Done (Error 500), mk_session (tables s) (1 + trips s))
  | Served _ =>
  match sc (1 + trips s)%nat with
  | Refused => (Done (Error 500), mk_session (tables s) (2 + trips s))
  | Served _ =>
  match sc (2 + trips s)%nat with
  | Refused => (Done (Error 500), mk_session (tables s) (3 + trips s))
  | Served _ =>
      match top_username_of data with
      | None => (Done (Error 500), mk_session (tables s) (3 + trips s))
      | Some top =>
          match save_loop top (data_items data) 0 sc
                  (mk_session (tables s) (3 + trips s)) with
          | (Done n, s') => (Done (Saved n), s')
          | (Raised, s') => (Done (Error 500), s')
          end
      end
  end end end.
Proof.
  run_store.
  destruct (sc (trips s)); simpl; [reflexivity|].
  destruct (sc (S (trips s))); simpl; [reflexivity|].
  destruct (sc (S (S (trips s)))); simpl; [reflexivity|].
  destruct (top_username_of data) as [top|]; simpl; [|reflexivity].
  destruct (save_loop _ _ _ _ _) as [[n|] s']; reflexivity.
Qed.


Lemma written_sound (top : string) (e : element) :
  written top e = true -> sound top e = true.
Proof.
  unfold written, sound. destruct (plan_of top e); auto; discriminate.
Qed.



(** A batch none of whose elements raises and whose round trips all
    succeed. *)
Lemma api_annotations_healthy (data : payload) (top : string) (sc : script)
  (s : session) :
  top_username_of data = Some top ->
  forallb (sound top) (data_items data) = true ->
  healthy_between sc (trips s)
    (trips s + 3 + count_written top (data_items data)) ->
  api_annotations (Batch data) sc s =
  (Done (Saved (count_written top (data_items data))),
   mk_session
     (mk_database (full_table1 (tables s))
        (commit_all sc (3 + trips s) top (data_items data)
           (output (tables s))))
     (3 + trips s + count_written top (data_items data))).
Proof.
  intros Ht Hs H. rewrite api_annotations_eq.
  destruct (sc (trips s)) eqn:E0; [exfalso; apply (H (trips s)); [lia|exact E0]|].
  destruct (sc (1 + trips s)%nat) eqn:E1;
    [exfalso; apply (H (1 + trips s)%nat); [lia|exact E1]|].
  destruct (sc (2 + trips s)%nat) eqn:E2;
    [exfalso; apply (H (2 + trips s)%nat); [lia|exact E2]|].
  rewrite Ht.
  rewrite save_loop_healthy; [reflexivity | exact Hs |].
  simpl. intros k Hk. apply H. lia.
Qed.

(** A batch whose first failure is the store refusing the write of [e]. *)
Lemma api_annotations_refused (user : option json) (top : string)
  (pre post : list element) (e : element) (sc : script) (s : session) :
  top_username_of (mk_payload user pre) = Some top ->
  forallb (sound top) pre = true ->
  written top e = true ->
  healthy_between sc (trips s) (trips s + 3 + count_written top pre) ->
  sc (trips s + 3 + count_written top pre)%nat = Refused ->
  api_annotations (Batch (mk_payload user (pre ++ e :: post))) sc s =
  (Done (Error 500),
   mk_session
     (mk_database (full_table1 (tables s))
        (commit_all sc (3 + trips s) top pre (output (tables s))))
     (S (3 + trips s + count_written top pre))).
Proof.
  intros Ht Hs He H Hk. rewrite api_annotations_eq.
  destruct (sc (trips s)) eqn:E0; [exfalso; apply (H (trips s)); [lia|exact E0]|].
  destruct (sc (1 + trips s)%nat) eqn:E1;
    [exfalso; apply (H (1 + trips s)%nat); [lia|exact E1]|].
  destruct (sc (2 + trips s)%nat) eqn:E2;
    [exfalso; apply (H (2 + trips s)%nat); [lia|exact E2]|].
  unfold top_username_of in *. cbn [data_username data_items] in Ht |- *.
  rewrite Ht.
  rewrite save_loop_app.
  rewrite save_loop_healthy by (try exact Hs; simpl; intros k Hk'; apply H; lia).
  rewrite save_loop_step. unfold written in He.
  destruct (plan_of top e) as [|oid u t c|b]; try discriminate.
  cbn [trips tables full_table1 output].
  replace (3 + trips s + count_written top pre)%nat
    with (trips s + 3 + count_written top pre)%nat by lia.
  rewrite Hk. reflexivity.
Qed.

Lemma _init_eq (sc : script) (s : session) :
  exists n, _init sc s = (Done tt, mk_session (tables s) n).
Proof.
  run_store.
  destruct (sc (trips s)); simpl; [eexists; reflexivity|].
  destruct (sc (S (trips s))); simpl; eexists; reflexivity.
Qed.

(** An invariant of the upsert of well-formed values is an invariant of the
    handler, whatever the body and the store. *)
Lemma api_annotations_invariant (P : list annotation -> Prop) (b : body)
  (sc : script) (s : session) :
  (forall oid u t c now out, oid <> "" -> (c = 0 \/ c = 1) -> P out ->
     P (upsert oid u t c now out)) ->
  P (output (tables s)) ->
  P (output (tables (snd (api_annotations b sc s)))).
Proof.
  intros Hstep H0. destruct b as [| |data]; try exact H0.
  rewrite api_annotations_eq.
  destruct (sc (trips s)); [exact H0|].
  destruct (sc (1 + trips s)%nat); [exact H0|].
  destruct (sc (2 + trips s)%nat); [exact H0|].
  destruct (top_username_of data) as [top|]; [|exact H0].
  pose proof (save_loop_invariant P top (data_items data) sc) as Hl.
  specialize (Hl (fun e oid u t c now out _ Hp Hout =>
                    Hstep oid u t c now out
                      ltac:(destruct e as [it|]; [|discriminate];
                            unfold plan_of in Hp;
                            destruct (has_oid it) eqn:Ho; [|discriminate];
                            destruct (entry_username top it); [|discriminate];
                            destruct (bound_text (entry_fix_text it));
                              [|discriminate];
                            injection Hp as <- _ _ _;
                            unfold has_oid in Ho; intros E; rewrite E in Ho;
                            discriminate)
                      ltac:(destruct e as [it|]; [|discriminate];
                            unfold plan_of in Hp;
                            destruct (has_oid it); [|discriminate];
                            destruct (entry_username top it); [|discriminate];
                            destruct (bound_text (entry_fix_text it));
                              [|discriminate];
                            injection Hp as _ _ _ <-;
                            unfold entry_confirmed;
                            destruct (it_confirmed it) as [v|]; [|auto];
                            destruct (truthy v); auto)
                      Hout)
              0%nat (mk_session (tables s) (3 + trips s)) H0).
  destruct (save_loop _ _ _ _ _) as [[n|] s']; exact Hl.
Qed.
Lemma view_pk_unique (rq : request) (sc : script) (s : session) :
  pk_unique (output (tables s)) ->
  pk_unique (output (tables (snd (view rq sc s)))).
Proof.
  intros H. destruct rq as [a|b]; simpl.
  - rewrite api_items_tables. exact H.
  - apply (api_annotations_invariant pk_unique); [|exact H].
    intros. apply upsert_pk_unique. assumption.
Qed.

(** Under the primary key the row of a key is alone. *)
Lemma key_count_one (oid u : string) (out : list annotation) :
  pk_unique out -> In (oid, u) (keys out) ->
  List.length (filter (same_key oid u) out) = 1%nat.
Proof.
  unfold pk_unique.
  induction out as [|o out IH]; simpl; [contradiction|].
  intros Hnd Hin. inversion Hnd as [|k l Hnotin Hnd']; subst.
  destruct (same_key oid u o) eqn:E.
  - apply same_key_true in E. simpl. f_equal.
    rewrite E in Hnotin.
    destruct (filter (same_key oid u) out) as [|o' l'] eqn:F; [reflexivity|].
    exfalso. apply Hnotin.
    assert (Ho' : In o' (filter (same_key oid u) out)) by (rewrite F; now left).
    apply filter_In in Ho'. destruct Ho' as [Ho' Hk].
    apply same_key_true in Hk. rewrite <- Hk.
    unfold keys. apply in_map_iff. exists o'. split; [reflexivity|exact Ho'].
  - apply IH; [exact Hnd'|].
    destruct Hin as [Hin|Hin]; [|exact Hin].
    apply same_key_true in Hin. congruence.
Qed.

(* ------------------------------------------------------------------ *)
(** ** The primary key is an invariant *)

(** C3: every operation keeps at most one row of [output] per
    (item identifier, user) pair: the view alone and the whole request
    ([_init], then the view) preserve [pk_unique]; and the write of one
    entry is a replace on conflict: when the key is already there the keys of
    the table do not change, otherwise exactly the new key is added, and in
    both cases one single row holds the key afterwards. *)
Theorem one_row_per_item_and_user (rq : request) (sc : script) (s : session)
  (oid username fix_text : string) (confirmed now : Z) :
  pk_unique (output (tables s)) ->
  pk_unique (output (tables (snd (view rq sc s)))) /\
  pk_unique (output (tables (snd (serve rq sc s)))) /\
  let out := output (tables s) in
  let out' := upsert oid username fix_text confirmed now out in
  pk_unique out' /\
  keys out' = (if existsb (same_key oid username) out then keys out
               else (keys out ++ [(oid, username)])%list) /\
  List.length (filter (same_key oid username) out') = 1%nat.
Proof.
  intros H. split; [apply view_pk_unique, H|]. split.
  - unfold serve, bind.
    destruct (_init_eq sc s) as [n E]. rewrite E.
    apply view_pk_unique. exact H.
  - cbv zeta. split; [apply upsert_pk_unique, H|]. split.
    + destruct (existsb (same_key oid username) (output (tables s))) eqn:E.
      * apply upsert_keys_present, existsb_same_key, E.
      * apply upsert_keys_absent. intros Hin.
        apply existsb_same_key in Hin. congruence.
    + apply key_count_one; [apply upsert_pk_unique, H | apply upsert_has_key].
Qed.

Lemma one_row_per_item_and_user_witness :
  pk_unique (output full_db) /\
  pk_unique
    (output (tables (snd (serve
       (PostAnnotations
          (Batch (mk_payload (str "bob") [Obj alice_entry; Obj plain_entry])))
       (always 7) (mk_session full_db 0))))).
Proof.
  assert (H : pk_unique (output full_db)).
  { unfold pk_unique. simpl.
    repeat constructor; simpl; intuition discriminate. }
  split; [exact H|].
  apply (one_row_per_item_and_user
           (PostAnnotations
              (Batch (mk_payload (str "bob") [Obj alice_entry; Obj plain_entry])))
           (always 7) (mk_session full_db 0) "42" "alice" "" 0 0 H).
Defined.

(* ------------------------------------------------------------------ *)
(** ** Skipped entries and the count *)

Lemma sound_written_identified (top : string) (e : element) :
  sound top e = true -> written top e = identified e.
Proof.
  unfold sound, written, plan_of, identified.
  destruct e as [it|]; [|reflexivity].
  destruct (has_oid it); [|reflexivity].
  destruct (entry_username top it); [|discriminate].
  destruct (bound_text (entry_fix_text it)); [reflexivity|discriminate].
Qed.

Lemma sound_filter_identified (top : string) (items : list element) :
  forallb (sound top) items = true ->
  filter (written top) items = filter identified items.
Proof.
  induction items as [|e items IH]; simpl; [reflexivity|].
  intros H. apply andb_prop in H. destruct H as [He H].
  rewrite (sound_written_identified top e He), (IH H). reflexivity.
Qed.




(* ------------------------------------------------------------------ *)
(** ** A store failure in the middle of a batch *)

(** C8: when the write of an element [e] is the first round trip of the
    batch that the store refuses, the answer is an error (status 500), not a
    count, and the tables are those the batch cut before [e] leaves, a batch
    that is answered with the count of its written entries: what was written
    before the failure stays, [e] and what follows it is not written. *)
Theorem store_failure_keeps_prefix (user : option json) (top : string)
  (pre post : list element) (e : element) (sc : script) (s : session) :
  top_username_of (mk_payload user pre) = Some top ->
  forallb (sound top) pre = true ->
  written top e = true ->
  healthy_between sc (trips s)
    (trips s + 3 + List.length (filter identified pre)) ->
  sc (trips s + 3 + List.length (filter identified pre))%nat = Refused ->
  fst (api_annotations (Batch (mk_payload user (pre ++ e :: post))) sc s)
  = Done (Error 500) /\
  fst (api_annotations (Batch (mk_payload user pre)) sc s)
  = Done (Saved (List.length (filter identified pre))) /\
  tables (snd (api_annotations (Batch (mk_payload user (pre ++ e :: post)))
                 sc s))
  = tables (snd (api_annotations (Batch (mk_payload user pre)) sc s)).
Proof.
  intros Ht Hs He H Hk.
  rewrite <- (sound_filter_identified top _ Hs) in *.
  fold (count_written top pre) in *.
  rewrite (api_annotations_refused user top pre post e sc s Ht Hs He H Hk).
  rewrite (api_annotations_healthy (mk_payload user pre) top sc s Ht Hs H).
  simpl. auto.
Qed.

Lemma store_failure_keeps_prefix_witness :
  fst (api_annotations
         (Batch (mk_payload (str "bob")
                   [Obj alice_entry; Obj blank_entry; Obj plain_entry]))
         (fails_at 4 7) (mk_session fresh_db 0))
  = Done (Error 500) /\
  fst (api_annotations
         (Batch (mk_payload (str "bob") [Obj alice_entry; Obj blank_entry]))
         (fails_at 4 7) (mk_session fresh_db 0))
  = Done (Saved 1) /\
  tables (snd (api_annotations
         (Batch (mk_payload (str "bob")
                   [Obj alice_entry; Obj blank_entry; Obj plain_entry]))
         (fails_at 4 7) (mk_session fresh_db 0)))
  = tables (snd (api_annotations
         (Batch (mk_payload (str "bob") [Obj alice_entry; Obj blank_entry]))
         (fails_at 4 7) (mk_session fresh_db 0))).
Proof.
  apply (store_failure_keeps_prefix (str "bob") "bob"
           [Obj alice_entry; Obj blank_entry] [] (Obj plain_entry)
           (fails_at 4 7) (mk_session fresh_db 0)).
  - reflexivity.
  - reflexivity.
  - reflexivity.
  - intros k Hk. simpl in Hk. unfold fails_at.
    destruct (Nat.eqb_spec k 4); [lia | discriminate].
  - reflexivity.
Defined.

(** A failure before the loop (the two round trips of
    [ensure_output_table], the connect): an error, and nothing written. *)
Lemma early_failure_writes_nothing (data : payload) (sc : script) (s : session)
  (k : nat) :
  (k < 3)%nat -> healthy_between sc (trips s) (trips s + k) ->
  sc (trips s + k)%nat = Refused ->
  fst (api_annotations (Batch data) sc s) = Done (Error 500) /\
  tables (snd (api_annotations (Batch data) sc s)) = tables s.
Proof.
  intros Hk H Hr. rewrite api_annotations_eq.
  destruct k as [|[|[|k]]]; try lia.
  - rewrite Nat.add_0_r in Hr. rewrite Hr. auto.
  - destruct (sc (trips s)) eqn:E0;
      [exfalso; apply (H (trips s)); [lia|exact E0]|].
    replace (1 + trips s)%nat with (trips s + 1)%nat by lia. rewrite Hr. auto.
  - destruct (sc (trips s)) eqn:E0;
      [exfalso; apply (H (trips s)); [lia|exact E0]|].
    destruct (sc (1 + trips s)%nat) eqn:E1;
      [exfalso; apply (H (1 + trips s)%nat); [lia|exact E1]|].
    replace (2 + trips s)%nat with (trips s + 2)%nat by lia. rewrite Hr. auto.
Qed.

(* ------------------------------------------------------------------ *)
(** ** Saving an entry again *)

Lemma upsert_overwrite (oid u fx : string) (c t1 t2 : Z)
  (out : list annotation) :
  upsert oid u fx c t2 (upsert oid u fx c t1 out) = upsert oid u fx c t2 out.
Proof.
  induction out as [|o out IH]; simpl.
  - unfold same_key. simpl. rewrite !String.eqb_refl. reflexivity.
  - destruct (same_key oid u o) eqn:E; simpl.
    + unfold same_key in *. simpl. rewrite E. reflexivity.
    + rewrite E, IH. reflexivity.
Qed.

Lemma upsert_untimed (oid u fx : string) (c t1 t2 : Z) (out : list annotation) :
  map untimed (upsert oid u fx c t1 out) = map untimed (upsert oid u fx c t2 out).
Proof.
  induction out as [|o out IH]; simpl; [reflexivity|].
  destruct (same_key oid u o); simpl; [reflexivity | rewrite IH; reflexivity].
Qed.

Lemma upsert_in_row (oid u fx : string) (c now : Z) (out : list annotation) :
  In (mk_annotation oid u fx c now) (upsert oid u fx c now out).
Proof.
  induction out as [|o out IH]; simpl; [now left|].
  destruct (same_key oid u o) eqn:E; [|right; exact IH].
  apply same_key_true in E. injection E as -> ->. now left.
Qed.

Lemma touch_without_key (oid u : string) (now : Z) (out : list annotation) :
  ~ In (oid, u) (keys out) -> map (touch oid u now) out = out.
Proof.
  induction out as [|o out IH]; simpl; intros H; [reflexivity|].
  unfold touch at 1. destruct (same_key oid u o) eqn:E.
  - apply same_key_true in E. exfalso. apply H. left. exact E.
  - f_equal. apply IH. intros Hin. apply H. right. exact Hin.
Qed.

(** Under the primary key, a second write of the same values changes the
    timestamp of the row of the key and nothing else. *)
Lemma upsert_again_touches (oid u fx : string) (c t1 t2 : Z)
  (out : list annotation) :
  pk_unique out ->
  upsert oid u fx c t2 out = map (touch oid u t2) (upsert oid u fx c t1 out).
Proof.
  unfold pk_unique.
  induction out as [|o out IH]; simpl; intros H.
  - unfold touch, same_key. simpl. rewrite !String.eqb_refl. reflexivity.
  - inversion H as [|k l Hnotin Hnd]; subst.
    destruct (same_key oid u o) eqn:E; simpl.
    + unfold touch at 1. unfold same_key in *. simpl. rewrite E. simpl.
      f_equal. symmetry. apply touch_without_key.
      fold (same_key oid u o) in E. apply same_key_true in E.
      rewrite <- E. exact Hnotin.
    + unfold touch at 1. rewrite E. f_equal. apply IH. exact Hnd.
Qed.

(** C4 (amended): saving the same entry a second time is answered with
    [saved = 1] and leaves one single row for the (item, user) key; that row
    holds the entry's text and flag and the time of the second write, and
    the table is the one of after the first save but for the timestamp of
    that row: every other row is as it was, timestamp included; when both
    writes happen at the same server time the tables are equal. *)
Theorem resave_refreshes_timestamp_only (user : option json) (top : string)
  (e : element) (oid u text : string) (c : Z) (sc1 sc2 : script) (s : session)
  (n2 : nat) :
  top_username_of (mk_payload user [e]) = Some top ->
  plan_of top e = Writes oid u text c ->
  pk_unique (output (tables s)) ->
  healthy_between sc1 (trips s) (trips s + 4) ->
  healthy_between sc2 n2 (n2 + 4) ->
  let b := Batch (mk_payload user [e]) in
  let first := api_annotations b sc1 s in
  let second := api_annotations b sc2 (mk_session (tables (snd first)) n2) in
  fst first = Done (Saved 1) /\
  fst second = Done (Saved 1) /\
  List.length (filter (same_key oid u) (output (tables (snd second)))) = 1%nat /\
  In (mk_annotation oid u text c (time_at sc2 (3 + n2)))
     (output (tables (snd second))) /\
  output (tables (snd second))
  = map (touch oid u (time_at sc2 (3 + n2))) (output (tables (snd first))) /\
  map untimed (output (tables (snd second)))
  = map untimed (output (tables (snd first))) /\
  full_table1 (tables (snd second)) = full_table1 (tables (snd first)) /\
  (time_at sc2 (3 + n2) = time_at sc1 (3 + trips s) ->
   tables (snd second) = tables (snd first)).
Proof.
  intros Ht Hp Hpk H1 H2. cbv zeta.
  assert (Hw : written top e = true) by (unfold written; rewrite Hp; reflexivity).
  assert (Hs : forallb (sound top) [e] = true)
    by (simpl; rewrite (written_sound top e Hw); reflexivity).
  assert (Hc : count_written top [e] = 1%nat)
    by (unfold count_written; simpl; rewrite Hw; reflexivity).
  rewrite (api_annotations_healthy (mk_payload user [e]) top sc1 s Ht Hs)
    by (simpl; rewrite Hc; intros k Hk; apply H1; lia).
  rewrite (api_annotations_healthy (mk_payload user [e]) top sc2 _ Ht Hs)
    by (simpl; rewrite Hc; intros k Hk; apply H2; lia).
  simpl. rewrite Hc, Hp. simpl.
  rewrite upsert_overwrite.
  repeat split.
  - apply key_count_one; [apply upsert_pk_unique, Hpk | apply upsert_has_key].
  - apply upsert_in_row.
  - apply upsert_again_touches, Hpk.
  - apply upsert_untimed.
  - intros ->. reflexivity.
Qed.

Lemma resave_refreshes_timestamp_only_witness :
  let b := Batch (mk_payload None [Obj alice_entry]) in
  let first := api_annotations b (always 1000) (mk_session two_db 0) in
  let second :=
    api_annotations b (always 2000) (mk_session (tables (snd first)) 0) in
  fst second = Done (Saved 1) /\
  output (tables (snd second))
  = map (touch "42" "alice" 2000) (output (tables (snd first))).
Proof.
  cbv zeta.
  pose proof (resave_refreshes_timestamp_only None "" (Obj alice_entry)
                "42" "alice" "Hello." 1 (always 1000) (always 2000)
                (mk_session two_db 0) 0) as H.
  cbv zeta in H.
  destruct H as [_ [H2 [_ [_ [H5 _]]]]].
  - reflexivity.
  - reflexivity.
  - unfold pk_unique. simpl. repeat constructor; simpl; intuition discriminate.
  - intros k _; discriminate.
  - intros k _; discriminate.
  - split; [exact H2 | exact H5].
Defined.

(** C4, as stated, fails: alice saves her entry for item 42 at time 1000
    and again at time 2000; the second save is answered with [saved = 1],
    but the stored state is not the one of after the first save: the row's
    timestamp went from 1000 to 2000. *)
Lemma resave_changes_stored_state :
  let b := Batch (mk_payload None [Obj alice_entry]) in
  let first := api_annotations b (always 1000) (mk_session fresh_db 0) in
  let second :=
    api_annotations b (always 2000) (mk_session (tables (snd first)) 0) in
  fst second = Done (Saved 1) /\
  output (tables (snd first)) = [mk_annotation "42" "alice" "Hello." 1 1000] /\
  output (tables (snd second)) = [mk_annotation "42" "alice" "Hello." 1 2000] /\
  tables (snd second) <> tables (snd first).
Proof.
  cbv zeta. repeat split; try reflexivity.
  vm_compute. intros H. discriminate H.
Qed.

(* ------------------------------------------------------------------ *)
(** ** Entries without a user *)

Lemma commit_all_app (sc : script) (top : string) (l1 l2 : list element) :
  forall n out,
  commit_all sc n top (l1 ++ l2) out
  = commit_all sc (n + count_written top l1) top l2
      (commit_all sc n top l1 out).
Proof.
  unfold count_written.
  induction l1 as [|e l1 IH]; intros n out; simpl.
  - rewrite Nat.add_0_r. reflexivity.
  - unfold written at 1.
    destruct (plan_of top e); simpl; rewrite IH; try reflexivity.
    f_equal. lia.
Qed.

Lemma in_keys_row (oid u : string) (out : list annotation) :
  In (oid, u) (keys out) <->
  exists o, In o out /\ o_id_oid o = oid /\ o_username o = u.
Proof.
  unfold keys. rewrite in_map_iff. split.
  - intros [o [E H]]. injection E as E1 E2. exists o. auto.
  - intros [o [H [E1 E2]]]. exists o. subst. auto.
Qed.

Lemma in_annotators (out : list annotation) (oid u : string) :
  In u (annotators out oid) <-> In (oid, u) (keys out).
Proof.
  unfold annotators. rewrite nodup_In, in_map_iff, in_keys_row.
  split; intros [o H]; exists o.
  - destruct H as [E H]. apply filter_In in H. destruct H as [H K].
    apply String.eqb_eq in K. auto.
  - destruct H as [H [E1 E2]]. split; [exact E2|].
    apply filter_In. split; [exact H | apply String.eqb_eq; exact E1].
Qed.

(** Three different users among the annotators fill the quota. *)
Lemma three_annotators (out : list annotation) (oid a b c : string) :
  a <> b -> a <> c -> b <> c ->
  In a (annotators out oid) -> In b (annotators out oid) ->
  In c (annotators out oid) ->
  (3 <= cross_user_count out oid)%nat.
Proof.
  intros Hab Hac Hbc Ha Hb Hc. unfold cross_user_count.
  change 3%nat with (List.length [a; b; c]).
  apply NoDup_incl_length.
  - repeat constructor; simpl; intuition congruence.
  - intros x [<-|[<-|[<-|[]]]]; assumption.
Qed.

Lemma blank_entry_username (it : entry) :
  blank_field (it_username it) -> entry_username "" it = Some "".
Proof.
  unfold blank_field, entry_username. simpl. auto.
Qed.

(** C10: an entry with an identifier whose own user and whose envelope user
    are both absent or blank is not skipped: in a batch none of whose
    elements raises and that the store serves whole, it is counted in
    [saved], the table holds afterwards a row for its item whose user is the
    empty string, and this row counts for the quota: the empty user is one
    of the item's annotators, so that with two more users the item is no
    longer listed, for anybody. *)
Theorem userless_entry_is_saved (data : payload) (pre post : list element)
  (it : entry) (sc : script) (s : session) :
  data_items data = (pre ++ Obj it :: post)%list ->
  has_oid it = true ->
  blank_field (it_username it) ->
  blank_field (data_username data) ->
  forallb (sound "") (data_items data) = true ->
  healthy_between sc (trips s)
    (trips s + 3 + List.length (filter identified (data_items data))) ->
  let after := snd (api_annotations (Batch data) sc s) in
  let out' := output (tables after) in
  entry_username "" it = Some "" /\
  fst (api_annotations (Batch data) sc s)
  = Done (Saved (List.length (filter identified pre) + 1
                 + List.length (filter identified post))) /\
  (exists o, In o out' /\ o_id_oid o = entry_oid it /\ o_username o = "") /\
  In "" (annotators out' (entry_oid it)) /\
  (1 <= cross_user_count out' (entry_oid it) <= o_cnt out' (Some (entry_oid it)))%nat /\
  forall u1 u2, u1 <> "" -> u2 <> "" -> u1 <> u2 ->
    In u1 (annotators out' (entry_oid it)) ->
    In u2 (annotators out' (entry_oid it)) ->
    forall a sc' n rows r,
      fst (fetch_rows a sc' (mk_session (tables after) n)) = Done rows ->
      In r rows -> r_id_oid r <> Some (entry_oid it).
Proof.
  intros Hitems Hit Hu Htop Hs H. cbv zeta.
  pose proof (blank_entry_username it Hu) as Hname.
  assert (Ht : top_username_of data = Some "") by exact Htop.
  rewrite <- (sound_filter_identified "" _ Hs) in H.
  rewrite (api_annotations_healthy data "" sc s Ht Hs H). simpl.
  unfold count_written.
  rewrite (sound_filter_identified "" _ Hs).
  rewrite Hitems, filter_app. simpl. rewrite Hit.
  rewrite length_app. simpl.
  rewrite Hitems in Hs. rewrite forallb_app in Hs.
  apply andb_prop in Hs. destruct Hs as [Hpre Hrest].
  simpl in Hrest. apply andb_prop in Hrest. destruct Hrest as [He Hpost].
  assert (Hplan : exists t, plan_of "" (Obj it)
                            = Writes (entry_oid it) "" t (entry_confirmed it)).
  { unfold sound in He. unfold plan_of in *. rewrite Hit, Hname in *.
    destruct (bound_text (entry_fix_text it)) as [t|]; [|discriminate].
    exists t. reflexivity. }
  destruct Hplan as [t Hplan].
  assert (Hkey : In (entry_oid it, "")
                   (keys (commit_all sc (S (S (S (trips s)))) ""
                            (pre ++ Obj it :: post) (output (tables s))))).
  { rewrite commit_all_app. cbn [commit_all]. rewrite Hplan.
    apply commit_all_keeps_key. apply upsert_has_key. }
  assert (Hin : In "" (annotators
                   (commit_all sc (S (S (S (trips s)))) ""
                      (pre ++ Obj it :: post) (output (tables s)))
                   (entry_oid it)))
    by (apply in_annotators; exact Hkey).
  split; [exact Hname|]. split; [do 2 f_equal; lia|].
  split; [apply in_keys_row; exact Hkey|].
  split; [exact Hin|]. split.
  - split; [|apply cross_user_count_le_o_cnt].
    unfold cross_user_count.
    destruct (annotators _ _); [contradiction | simpl; lia].
  - intros u1 u2 N1 N2 N12 I1 I2 a sc' n rows r E Hr Hid.
    pose proof (fetched_below_quota a sc' _ rows r (entry_oid it) E Hr Hid) as Hlt.
    simpl in Hlt.
    pose proof (three_annotators _ (entry_oid it) "" u1 u2
                  (fun e => N1 (eq_sym e)) (fun e => N2 (eq_sym e)) N12
                  Hin I1 I2).
    lia.
Qed.

Lemma userless_entry_is_saved_witness :
  let b := Batch (mk_payload (str nbsp) [Obj wide_userless_entry]) in
  let after := snd (api_annotations b (always 7) (mk_session two_db 0)) in
  fst (api_annotations b (always 7) (mk_session two_db 0)) = Done (Saved 1) /\
  In "" (annotators (output (tables after)) "42") /\
  forall a sc' n rows r,
    fst (fetch_rows a sc' (mk_session (tables after) n)) = Done rows ->
    In r rows -> r_id_oid r <> Some "42".
Proof.
  cbv zeta.
  pose proof (userless_entry_is_saved
                (mk_payload (str nbsp) [Obj wide_userless_entry])
                [] [] wide_userless_entry (always 7) (mk_session two_db 0)) as H.
  cbv zeta in H.
  destruct H as [_ [H2 [_ [H4 [_ H6]]]]].
  - reflexivity.
  - reflexivity.
  - reflexivity.
  - reflexivity.
  - reflexivity.
  - intros k _; discriminate.
  - split; [exact H2|]. split; [exact H4|].
    apply (H6 "alice" "bob"); try discriminate.
    + vm_compute. auto.
    + vm_compute. auto.
Defined.

(* ------------------------------------------------------------------ *)
(** ** The anonymous listing *)

(** C9 (the handler departs from it): a save without any user stores a row
    whose user is the empty string; the listing of the anonymous user joins
    [o_user] on that very string, so the row is backfilled: item 42, whose
    recognized text is "hello", comes back with the saved text "Hello." and
    the confirmed flag set. *)
Theorem anonymous_listing_is_backfilled :
  let saved := api_annotations (Batch (mk_payload None [Obj userless_entry]))
                 (always 7) (mk_session fresh_db 0) in
  fst saved = Done (Saved 1) /\
  output (tables (snd saved)) = [mk_annotation "42" "" "Hello." 1 7] /\
  exists e,
    fst (api_items (list_for None) (always 8) (mk_session (tables (snd saved)) 0))
    = Done (Items [e]) /\
    e_id e = "42" /\ e_inputText e = "hello" /\
    e_fixText e = "Hello." /\ e_confirmed e = true.
Proof.
  cbv zeta. split; [reflexivity|]. split; [reflexivity|].
  eexists. split; [vm_compute; reflexivity|].
  repeat split.
Qed.

(* ------------------------------------------------------------------ *)
(** ** Order and pages *)

Lemma string_compare_le_trans :
  forall s1 s2 s3,
  String.compare s1 s2 <> Gt -> String.compare s2 s3 <> Gt ->
  String.compare s1 s3 <> Gt.
Proof.
  induction s1 as [|c1 s1 IH]; intros [|c2 s2] [|c3 s3]; simpl;
    try congruence.
  intros H12 H23.
  destruct (Ascii.compare c1 c2) eqn:E12; [| |congruence].
  - apply Ascii.compare_eq_iff in E12. subst c2.
    destruct (Ascii.compare c1 c3); [apply (IH s2); assumption | congruence | congruence].
  - destruct (Ascii.compare c2 c3) eqn:E23; [| |congruence].
    + apply Ascii.compare_eq_iff in E23. subst c3. rewrite E12. congruence.
    + assert (E13 : Ascii.compare c1 c3 = Lt).
      { unfold Ascii.compare in *. rewrite N.compare_lt_iff in *. lia. }
      rewrite E13. congruence.
Qed.

Lemma string_leb_trans (s1 s2 s3 : string) :
  String.leb s1 s2 = true -> String.leb s2 s3 = true -> String.leb s1 s3 = true.
Proof.
  unfold String.leb. intros H12 H23.
  pose proof (string_compare_le_trans s1 s2 s3) as H.
  destruct (String.compare s1 s2); try discriminate;
    destruct (String.compare s2 s3); try discriminate;
    destruct (String.compare s1 s3); try reflexivity;
    exfalso; apply H; congruence.
Qed.

Lemma oid_le_total (a b : option string) : oid_le a b = true \/ oid_le b a = true.
Proof.
  destruct a as [x|], b as [y|]; simpl; auto. apply String.leb_total.
Qed.

Lemma oid_le_trans (a b c : option string) :
  oid_le a b = true -> oid_le b c = true -> oid_le a c = true.
Proof.
  destruct a as [x|], b as [y|], c as [z|]; simpl; try congruence.
  apply string_leb_trans.
Qed.

Lemma insert_row_ascending (r : row) (l : list row) :
  ascending l -> ascending (insert_row r l).
Proof.
  unfold ascending.
  induction l as [|x l IH]; intros H; simpl.
  - constructor; constructor.
  - apply StronglySorted_inv in H. destruct H as [Hl Hx].
    destruct (oid_le (r_id_oid r) (r_id_oid x)) eqn:E.
    + constructor; [constructor; assumption|].
      constructor; [exact E|].
      eapply Forall_impl; [|exact Hx].
      intros y Hy. eapply oid_le_trans; eassumption.
    + constructor; [apply IH; exact Hl|].
      eapply Permutation_Forall; [apply insert_row_perm|].
      constructor; [|exact Hx].
      destruct (oid_le_total (r_id_oid r) (r_id_oid x)); congruence.
Qed.

Lemma order_by_ascending (l : list row) : ascending (order_by l).
Proof.
  induction l as [|x l IH]; simpl; [constructor|].
  apply insert_row_ascending, IH.
Qed.

Lemma ascending_skipn (n : nat) : forall l, ascending l -> ascending (skipn n l).
Proof.
  unfold ascending.
  induction n as [|n IH]; intros [|x l] H; simpl; auto.
  apply IH. apply StronglySorted_inv in H. tauto.
Qed.

Lemma ascending_firstn (n : nat) : forall l, ascending l -> ascending (firstn n l).
Proof.
  unfold ascending.
  induction n as [|n IH]; intros [|x l] H; simpl; try constructor.
  - apply IH. apply StronglySorted_inv in H. tauto.
  - apply StronglySorted_inv in H. destruct H as [_ H].
    rewrite Forall_forall in *. intros y Hy. apply H.
    eapply in_firstn; eassumption.
Qed.

Lemma page_limit_range (a : items_args) : 1 <= page_limit a <= 1000.
Proof.
  unfold page_limit, parse_page.
  destruct (arg_limit a), (arg_offset a); simpl; lia.
Qed.

Lemma page_offset_range (a : items_args) : 0 <= page_offset a.
Proof.
  unfold page_offset, parse_page.
  destruct (arg_limit a), (arg_offset a); simpl; lia.
Qed.

(** A listing that the store serves. *)
Lemma api_items_healthy (a : items_args) (sc : script) (s : session) :
  healthy_between sc (trips s) (trips s + 2) ->
  api_items a sc s =
  (Done (Items (enrich_all
           (select_items (tables s) (parse_username a) (parse_hide_confirmed a)
              (page_limit a) (page_offset a)))),
   mk_session (tables s) (S (S (trips s)))).
Proof.
  intros H. rewrite api_items_eq, fetch_rows_eq.
  destruct (sc (trips s)) eqn:E0; [exfalso; apply (H (trips s)); [lia|exact E0]|].
  destruct (sc (S (trips s))) eqn:E1;
    [exfalso; apply (H (S (trips s))); [lia|exact E1]|].
  reflexivity.
Qed.

(** C6 (amended): the eligible rows are in ascending order of identifier,
    and so is every page; for a limit within 1..1000 and an offset of at
    least 0, with the same store and the same filters, the listing at
    [offset] and the listing at [offset + limit] return two adjacent slices
    of the eligible sequence: it is made of its first [offset] rows, the first
    page, the second page, and the rows from [offset + 2 * limit] on. *)
Theorem consecutive_pages_partition (username hideConfirmed : option string)
  (limit offset : Z) (sc1 sc2 : script) (db : database) (n1 n2 : nat) :
  1 <= limit <= 1000 -> 0 <= offset ->
  healthy_between sc1 n1 (n1 + 2) -> healthy_between sc2 n2 (n2 + 2) ->
  let a1 := page_of username hideConfirmed limit offset in
  let a2 := page_of username hideConfirmed limit (offset + limit) in
  let all := eligible db (parse_username a1) (parse_hide_confirmed a1) in
  let L := Z.to_nat limit in
  let O := Z.to_nat offset in
  let p1 := firstn L (skipn O all) in
  let p2 := firstn L (skipn (O + L) all) in
  fst (api_items a1 sc1 (mk_session db n1)) = Done (Items (enrich_all p1)) /\
  fst (api_items a2 sc2 (mk_session db n2)) = Done (Items (enrich_all p2)) /\
  all = (firstn O all ++ p1 ++ p2 ++ skipn (O + L + L) all)%list /\
  ascending all /\ ascending p1 /\ ascending p2.
Proof.
  intros Hl Ho H1 H2. cbv zeta.
  rewrite !api_items_healthy by assumption.
  unfold select_items, page_limit, page_offset, parse_page, page_of. simpl.
  replace (Z.max 1 (Z.min limit 1000)) with limit by lia.
  replace (Z.max 0 offset) with offset by lia.
  replace (Z.max 0 (offset + limit)) with (offset + limit) by lia.
  rewrite Z2Nat.inj_add by lia.
  set (all := eligible db _ _).
  set (L := Z.to_nat limit). set (O := Z.to_nat offset).
  assert (Hall : ascending all) by apply order_by_ascending.
  repeat split; auto using ascending_firstn, ascending_skipn.
  rewrite <- (firstn_skipn O all) at 1. f_equal.
  rewrite <- (firstn_skipn L (skipn O all)) at 1. f_equal.
  rewrite skipn_skipn, (Nat.add_comm L O).
  rewrite <- (firstn_skipn L (skipn (O + L) all)) at 1. f_equal.
  rewrite skipn_skipn. f_equal. lia.
Qed.

Lemma consecutive_pages_partition_witness :
  fst (api_items (page_of None None 1 1) (always 5) (mk_session three_db 0))
  = Done (Items (enrich_all [mk_row (Some "2") None (Some "two") None None])) /\
  fst (api_items (page_of None None 1 2) (always 5) (mk_session three_db 0))
  = Done (Items (enrich_all [mk_row (Some "3") None (Some "three") None None])).
Proof.
  pose proof (consecutive_pages_partition None None 1 1 (always 5) (always 5)
                three_db 0 0) as H.
  cbv zeta in H.
  destruct H as [H1 [H2 _]]; try lia; try (intros k _; discriminate).
  split; [exact H1 | exact H2].
Defined.

(** C6, as stated, fails outside these ranges, where the handler clamps its
    arguments.  With a negative offset, the calls at offsets -1 and -1 + 1
    both return item 1; with limit 0 the call returns item 1 although the
    next offset is the same offset; with limit 2000 on 1002 eligible items,
    the calls at offsets 0 and 2000 return 1000 items and none: two items
    are on no page. *)
Lemma clamped_pages_overlap_or_skip :
  (fst (api_items (page_of None None 1 (-1)) (always 5) (mk_session three_db 0))
   = fst (api_items (page_of None None 1 (-1 + 1)) (always 5)
            (mk_session three_db 0)) /\
   count_items (fst (api_items (page_of None None 1 (-1)) (always 5)
                       (mk_session three_db 0))) = 1%nat) /\
  count_items (fst (api_items (page_of None None 0 0) (always 5)
                      (mk_session three_db 0))) = 1%nat /\
  (List.length (eligible (numbered_db 1002) "" false) = 1002%nat /\
   count_items (fst (api_items (page_of None None 2000 0) (always 5)
                       (mk_session (numbered_db 1002) 0))) = 1000%nat /\
   count_items (fst (api_items (page_of None None 2000 (0 + 2000)) (always 5)
                       (mk_session (numbered_db 1002) 0))) = 0%nat).
Proof.
  split; [split | split; [ | split; [ | split ] ] ]; vm_compute; reflexivity.
Qed.

(* ------------------------------------------------------------------ *)
(** ** The user's own row *)

Lemma users_of_item_nodup (out : list annotation) (oid : string) :
  pk_unique out ->
  NoDup (map o_username (filter (fun o => String.eqb (o_id_oid o) oid) out)).
Proof.
  unfold pk_unique.
  induction out as [|o out IH]; simpl; intros H; [constructor|].
  inversion H as [|k l Hnotin Hnd]; subst.
  destruct (String.eqb (o_id_oid o) oid) eqn:E; [|apply IH; exact Hnd].
  simpl. constructor; [|apply IH; exact Hnd].
  intros Hin. apply Hnotin.
  apply in_map_iff in Hin. destruct Hin as [o' [Eu Ho']].
  apply filter_In in Ho'. destruct Ho' as [Ho' Eid].
  apply String.eqb_eq in E. apply String.eqb_eq in Eid.
  apply in_keys_row. exists o'. repeat split; congruence.
Qed.

(** Under the primary key, COUNT( * ) of an item's group is the number of
    its distinct users. *)
Lemma o_cnt_cross_user_count (out : list annotation) (oid : string) :
  pk_unique out -> o_cnt out (Some oid) = cross_user_count out oid.
Proof.
  intros H. unfold cross_user_count, annotators, o_cnt. simpl.
  rewrite nodup_fixed_point by (apply users_of_item_nodup; exact H).
  rewrite length_map. reflexivity.
Qed.

(** The row that the SELECT builds for item [f] and the user's row [o]. *)
Lemma own_row_eligible (db : database) (f : item) (o : annotation)
  (oid u : string) (hide : bool) :
  In f (full_table1 db) -> id_oid f = Some oid ->
  In o (output db) -> o_id_oid o = oid -> o_username o = u ->
  usable_text (score_audio_input_text f) = true ->
  (o_cnt (output db) (Some oid) < 3)%nat ->
  (hide = true -> o_confirmed o <> 1) ->
  In (mk_row (Some oid) (stage_audio_path f) (score_audio_input_text f)
             (Some (o_fix_text o)) (Some (o_confirmed o)))
     (eligible db u hide).
Proof.
  intros Hf Hid Ho Hoid Hu Htext Hcnt Hhide.
  unfold eligible.
  eapply Permutation_in; [apply order_by_perm|].
  unfold from_where. apply in_flat_map. exists f. split; [exact Hf|].
  apply filter_In. split.
  - assert (Hm : In o (o_user (output db) u f)).
    { unfold o_user. apply filter_In. split; [exact Ho|].
      rewrite Hid. simpl. rewrite Hoid, Hu, !String.eqb_refl. reflexivity. }
    unfold left_join.
    destruct (o_user (output db) u f) as [|o0 l] eqn:E; [contradiction|].
    rewrite <- Hid. apply in_map_iff. exists o. split; [reflexivity|exact Hm].
  - unfold where_clause. simpl. rewrite Htext. simpl.
    apply Nat.ltb_lt in Hcnt. rewrite Hcnt. simpl.
    destruct hide; [|reflexivity].
    unfold not_confirmed. simpl.
    apply negb_true_iff, Z.eqb_neq, Hhide. reflexivity.
Qed.

Lemma own_row_eligible_joined (db : database) (f : item) (o : annotation)
  (oid u : string) (hide : bool) :
  In f (full_table1 db) -> id_oid f = Some oid ->
  In o (output db) -> o_id_oid o = oid -> o_username o = u ->
  usable_text (score_audio_input_text f) = true ->
  (o_cnt (output db) (Some oid) < 3)%nat ->
  (hide = true -> o_confirmed o <> 1) ->
  In (joined f o) (eligible db u hide).
Proof.
  intros Hf Hid Ho Hoid Hu Htext Hcnt Hhide.
  unfold joined. rewrite Hid.
  apply (own_row_eligible db f o oid u hide); assumption.
Qed.

Lemma nth_error_enrich_from (rows : list row) :
  forall i j,
  nth_error (enrich_from i rows) j
  = option_map (enrich (i + j)) (nth_error rows j).
Proof.
  induction rows as [|r rows IH]; intros i j; simpl.
  - destruct j; reflexivity.
  - destruct j as [|j]; simpl.
    + rewrite Nat.add_0_r. reflexivity.
    + rewrite IH. do 2 f_equal. lia.
Qed.

(** A row of the eligible sequence is listed, at its place, by every
    request of that user and filter whose page covers its position. *)
Lemma covered_row_is_listed (a : items_args) (sc : script) (s : session)
  (k : nat) (r : row) :
  nth_error (eligible (tables s) (parse_username a) (parse_hide_confirmed a)) k
  = Some r ->
  healthy_between sc (trips s) (trips s + 2) ->
  page_offset a <= Z.of_nat k < page_offset a + page_limit a ->
  exists items,
    fst (api_items a sc s) = Done (Items items) /\
    nth_error items (k - Z.to_nat (page_offset a))
    = Some (enrich (k - Z.to_nat (page_offset a)) r).
Proof.
  intros Hk Hsc Hpage.
  rewrite api_items_healthy by exact Hsc.
  eexists. split; [reflexivity|].
  unfold enrich_all. rewrite nth_error_enrich_from. simpl.
  unfold select_items. rewrite nth_error_firstn.
  pose proof (page_offset_range a) as Ho.
  assert (Hlt : (k - Z.to_nat (page_offset a) <? Z.to_nat (page_limit a))%nat
                = true) by (apply Nat.ltb_lt; lia).
  rewrite Hlt, nth_error_skipn.
  replace (Z.to_nat (page_offset a) + (k - Z.to_nat (page_offset a)))%nat
    with k by lia.
  rewrite Hk. reflexivity.
Qed.

(** C2 (amended): for a user U who holds a row for item I, when I has
    usable text, fewer than 3 distinct annotators and (with hideConfirmed
    set) U's row does not carry confirmed = 1, the item has a position in
    the eligible sequence of U, and every listing for U, whatever its limit
    and offset, whose page covers that position returns I at its place in
    the page, with the confirmed flag of the row and with the row's text
    when that is not empty, the recognized text otherwise.  (An item with 3
    annotators or more is not listed for its own annotators either.) *)
Theorem own_row_is_backfilled (db : database) (f : item) (o : annotation)
  (oid : string) (username hideConfirmed : option string) :
  pk_unique (output db) ->
  In f (full_table1 db) -> id_oid f = Some oid ->
  In o (output db) -> o_id_oid o = oid ->
  o_username o = Str.strip (str_or username "") ->
  usable_text (score_audio_input_text f) = true ->
  (cross_user_count (output db) oid < 3)%nat ->
  (parse_hide_confirmed (page_of username hideConfirmed 1 0) = true ->
   o_confirmed o <> 1) ->
  exists k,
    nth_error (eligible db (Str.strip (str_or username ""))
                 (parse_hide_confirmed (page_of username hideConfirmed 1 0))) k
    = Some (joined f o) /\
    forall (limit offset : int_arg) (sc : script) (n : nat),
      let a := mk_items_args limit offset username hideConfirmed in
      healthy_between sc n (n + 2) ->
      page_offset a <= Z.of_nat k < page_offset a + page_limit a ->
      exists items e,
        fst (api_items a sc (mk_session db n)) = Done (Items items) /\
        nth_error items (k - Z.to_nat (page_offset a)) = Some e /\
        e_id e = oid /\
        e_inputText e = str_or (score_audio_input_text f) "" /\
        e_fixText e = (if Str.is_empty (o_fix_text o) then e_inputText e
                       else o_fix_text o) /\
        e_confirmed e = negb (o_confirmed o =? 0).
Proof.
  intros Hpk Hf Hid Ho Hoid Hu Htext Hcnt Hhide.
  rewrite <- o_cnt_cross_user_count in Hcnt by exact Hpk.
  pose proof (own_row_eligible_joined db f o oid _ _ Hf Hid Ho Hoid Hu Htext
                Hcnt Hhide) as Hin.
  apply In_nth_error in Hin. destruct Hin as [k Hk].
  exists k. split; [exact Hk|].
  intros limit offset sc n a Hsc Hpage.
  destruct (covered_row_is_listed a sc (mk_session db n) k (joined f o) Hk Hsc
              Hpage) as [items [E Hn]].
  exists items. eexists. split; [exact E|]. split; [exact Hn|].
  unfold enrich, joined. simpl. rewrite Hid. repeat split.
Qed.

Lemma own_row_is_backfilled_witness :
  exists k,
    nth_error (eligible
                 (mk_database [item42; mk_item (Some "41") None (Some "hi")]
                    [note "42" "alice" "Hello." 0])
                 (Str.strip (str_or (Some (" alice" ++ nbsp)) ""))
                 (parse_hide_confirmed
                    (page_of (Some (" alice" ++ nbsp)) (Some "yes") 1 0))) k
    = Some (joined item42 (note "42" "alice" "Hello." 0)) /\
    forall (limit offset : int_arg) (sc : script) (n : nat),
      let a := mk_items_args limit offset (Some (" alice" ++ nbsp))
                 (Some "yes") in
      healthy_between sc n (n + 2) ->
      page_offset a <= Z.of_nat k < page_offset a + page_limit a ->
      exists items e,
        fst (api_items a sc
               (mk_session
                  (mk_database [item42; mk_item (Some "41") None (Some "hi")]
                     [note "42" "alice" "Hello." 0]) n))
        = Done (Items items) /\
        nth_error items (k - Z.to_nat (page_offset a)) = Some e /\
        e_id e = "42" /\
        e_inputText e = str_or (score_audio_input_text item42) "" /\
        e_fixText e
        = (if Str.is_empty (o_fix_text (note "42" "alice" "Hello." 0))
           then e_inputText e
           else o_fix_text (note "42" "alice" "Hello." 0)) /\
        e_confirmed e = negb (o_confirmed (note "42" "alice" "Hello." 0) =? 0).
Proof.
  apply (own_row_is_backfilled
           (mk_database [item42; mk_item (Some "41") None (Some "hi")]
              [note "42" "alice" "Hello." 0]) item42
           (note "42" "alice" "Hello." 0) "42" (Some (" alice" ++ nbsp))
           (Some "yes")).
  - unfold pk_unique. simpl. repeat constructor. simpl. tauto.
  - simpl. auto.
  - reflexivity.
  - simpl. auto.
  - reflexivity.
  - reflexivity.
  - reflexivity.
  - vm_compute. lia.
  - intros _. discriminate.
Defined.

(** C2, as stated, fails.  Alice holds a row for item 42, and so do bob
    and carol: the listing for alice does not return item 42, on any page.
    And where alice alone holds a row, saved with an empty text and the
    confirmed flag: the listing returns item 42 with the recognized text
    "hello", not the saved (empty) text, and with hideConfirmed set it does
    not return the item. *)
Lemma own_row_over_quota_not_listed :
  (In (note "42" "alice" "Hello." 1) (output full_db) /\
   In item42 (full_table1 full_db) /\
   forall limit offset,
     fst (api_items (mk_items_args limit offset (Some "alice") None) (always 5)
            (mk_session full_db 0)) = Done (Items [])) /\
  (exists e,
     fst (api_items (list_for (Some "alice")) (always 5)
            (mk_session (mk_database [item42] [note "42" "alice" "" 1]) 0))
     = Done (Items [e]) /\ e_fixText e = "hello" /\ e_confirmed e = true) /\
  fst (api_items (mk_items_args ArgAbsent ArgAbsent (Some "alice") (Some "1"))
         (always 5)
         (mk_session (mk_database [item42] [note "42" "alice" "" 1]) 0))
  = Done (Items []).
Proof.
  split; [|split].
  - split; [simpl; auto|]. split; [simpl; auto|].
    intros limit offset.
    rewrite api_items_healthy by (intros k _; discriminate).
    unfold select_items.
    assert (E : eligible (tables (mk_session full_db 0))
                  (parse_username
                     (mk_items_args limit offset (Some "alice") None))
                  (parse_hide_confirmed
                     (mk_items_args limit offset (Some "alice") None)) = [])
      by reflexivity.
    rewrite E, skipn_nil, firstn_nil. reflexivity.
  - eexists. split; [vm_compute; reflexivity|]. split; reflexivity.
  - vm_compute. reflexivity.
Qed.

(* ------------------------------------------------------------------ *)
(** * Further properties of the handlers *)

(** ** What no request does *)

(** A login ends in the session it started in, but for the round trips, and
    raises exactly when one of its fields makes it raise before the [try]. *)
Lemma api_login_eq (login : list credential) (data : login_data)
  (sc : script) (s : session) :
  exists r n,
    api_login login data sc s = (r, mk_session (tables s) n) /\
    (r = Raised <-> login_raises data = true).
Proof.
  destruct data as [|u p]; simpl.
  - exists Raised, (trips s). unfold raise. destruct s. simpl. tauto.
  - unfold bind at 1.
    destruct (strip_of (py_or u (JStr ""))) as [name|]; simpl.
    + destruct (Str.is_empty name || negb (secret_truthy (secret_or_empty p))).
      * exists (Done (LoginError 400)), (trips s). unfold ret.
        destruct s; simpl. split; [reflexivity|]. split; discriminate.
      * run_store.
        destruct (sc (trips s)); simpl;
          [eexists; eexists; split; [reflexivity | split; discriminate]|].
        destruct (sc (S (trips s))); simpl;
          [eexists; eexists; split; [reflexivity | split; discriminate]|].
        destruct (secret_or_empty p) as [text|t [found|]]; simpl;
          eexists; eexists; (split; [reflexivity | split; discriminate]).
    + exists Raised, (trips s). unfold raise. destruct s; simpl. tauto.
Qed.

Lemma api_health_eq (sc : script) (s : session) :
  exists ok n, api_health sc s = (Done ok, mk_session (tables s) n).
Proof.
  unfold api_health. run_store.
  destruct (sc (trips s)); simpl; [eexists; eexists; reflexivity|].
  destruct (sc (S (trips s))); simpl; eexists; eexists; reflexivity.
Qed.

Lemma api_items_done (a : items_args) (sc : script) (s : session) :
  exists r n, api_items a sc s = (Done r, mk_session (tables s) n).
Proof.
  rewrite api_items_eq, fetch_rows_eq.
  destruct (sc (trips s)); [eexists; eexists; reflexivity|].
  destruct (sc (S (trips s))); eexists; eexists; reflexivity.
Qed.

Lemma save_loop_shape (top : string) (items : list element) (sc : script) :
  forall saved s, exists r out n,
  save_loop top items saved sc s
  = (r, mk_session (mk_database (full_table1 (tables s)) out) n).
Proof.
  induction items as [|e items IH]; intros saved s.
  - exists (Done saved), (output (tables s)), (trips s).
    simpl. unfold ret. destruct s as [[ft out] n]; reflexivity.
  - rewrite save_loop_step.
    destruct (plan_of top e) as [|oid u t c|[|]]; [apply IH| | |].
    + destruct (sc (trips s)).
      * exists Raised, (output (tables s)), (S (trips s)).
        destruct s as [[ft out] n]; reflexivity.
      * destruct (IH (S saved)
                    (mk_session
                       (mk_database (full_table1 (tables s))
                          (upsert oid u t c now (output (tables s))))
                       (S (trips s)))) as [r [out [n E]]].
        exists r, out, n. exact E.
    + exists Raised, (output (tables s)), (S (trips s)).
      destruct s as [[ft out] n]; reflexivity.
    + exists Raised, (output (tables s)), (trips s).
      destruct s as [[ft out] n]; reflexivity.
Qed.

Lemma api_annotations_done (b : body) (sc : script) (s : session) :
  exists r out n,
  api_annotations b sc s
  = (Done r, mk_session (mk_database (full_table1 (tables s)) out) n).
Proof.
  assert (Hs : forall r n, exists r' out n',
            (Done r, mk_session (tables s) n)
            = (@Done response r',
               mk_session (mk_database (full_table1 (tables s)) out) n')).
  { intros r n. exists r, (output (tables s)), n.
    destruct s as [[ft out] k]; reflexivity. }
  destruct b as [| |data].
  - destruct (Hs (Error 500) (trips s)) as [r [out [n E]]].
    exists r, out, n. rewrite <- E. destruct s; reflexivity.
  - destruct (Hs (Error 400) (trips s)) as [r [out [n E]]].
    exists r, out, n. rewrite <- E. destruct s; reflexivity.
  - rewrite api_annotations_eq.
    destruct (sc (trips s)); [apply Hs|].
    destruct (sc (1 + trips s)%nat); [apply Hs|].
    destruct (sc (2 + trips s)%nat); [apply Hs|].
    destruct (top_username_of data) as [top|]; [|apply Hs].
    destruct (save_loop_shape top (data_items data) sc 0
                (mk_session (tables s) (3 + trips s))) as [r [out [n E]]].
    rewrite E. simpl. destruct r; eexists; eexists; eexists; reflexivity.
Qed.

(** Whatever the store answers, a request for the items, for a save or for
    the health is answered: these handlers let no exception out.  A login is
    answered unless its body is a JSON value without [get] or its user name
    a value without [strip], which raise before the [try] of the handler.
    No request changes [full_table1], and only POST /api/annotations can
    change [output]. *)
Theorem requests_are_answered_and_reads_do_not_write
  (login : list credential) (rt : route) (sc : script) (s : session) :
  ((exists ans, fst (dispatch login rt sc s) = Done ans) <->
   (forall data, rt = Login data -> login_raises data = false)) /\
  full_table1 (tables (snd (dispatch login rt sc s))) = full_table1 (tables s) /\
  ((forall b, rt <> Annotate b) ->
   tables (snd (dispatch login rt sc s)) = tables s).
Proof.
  unfold dispatch, bind.
  destruct (_init_eq sc s) as [n0 E0]. rewrite E0.
  destruct rt as [data|a|b|]; unfold ret.
  - destruct (api_login_eq login data sc (mk_session (tables s) n0))
      as [r [n [E Hr]]]. rewrite E. simpl.
    destruct r as [r|]; simpl; (split; [|split; reflexivity]).
    + split; [|eauto]. intros _ d Hd. injection Hd as <-.
      destruct (login_raises data); [|reflexivity].
      destruct Hr as [_ Hr]. discriminate (Hr eq_refl).
    + split; [intros [ans Hans]; discriminate|].
      intros H. destruct Hr as [Hr _].
      specialize (Hr eq_refl). rewrite (H data eq_refl) in Hr.
      discriminate Hr.
  - destruct (api_items_done a sc (mk_session (tables s) n0)) as [r [n E]].
    rewrite E. simpl. repeat split; eauto. intros; discriminate.
  - destruct (api_annotations_done b sc (mk_session (tables s) n0))
      as [r [out [n E]]]. rewrite E. simpl.
    split; [split; [intros; discriminate | eauto]|].
    split; [reflexivity|].
    intros H. exfalso. apply (H b). reflexivity.
  - destruct (api_health_eq sc (mk_session (tables s) n0)) as [ok [n E]].
    rewrite E. simpl. repeat split; eauto. intros; discriminate.
Qed.

Lemma requests_are_answered_and_reads_do_not_write_witness :
  (exists ans,
     fst (dispatch [] (Annotate (Batch (mk_payload (Some (json_int 7))
                                          [NotObj; Obj alice_entry])))
            never (mk_session fresh_db 0)) = Done ans) /\
  ~ (exists ans,
       fst (dispatch [] (Login (LoginFields (Some (json_int 7)) None))
              (always 5) (mk_session fresh_db 0)) = Done ans).
Proof.
  split.
  - apply (requests_are_answered_and_reads_do_not_write []
             (Annotate (Batch (mk_payload (Some (json_int 7))
                                 [NotObj; Obj alice_entry])))
             never (mk_session fresh_db 0)).
    intros data H. discriminate H.
  - intros H.
    destruct (requests_are_answered_and_reads_do_not_write []
                (Login (LoginFields (Some (json_int 7)) None))
                (always 5) (mk_session fresh_db 0)) as [[Hans _] _].
    specialize (Hans H _ eq_refl). discriminate Hans.
Defined.

(* ------------------------------------------------------------------ *)
(** ** What a listing contains *)

Lemma listed_cases (a : items_args) (sc : script) (s : session) :
  listed a sc s = [] \/
  listed a sc s
  = enrich_all (select_items (tables s) (parse_username a)
                  (parse_hide_confirmed a) (page_limit a) (page_offset a)).
Proof.
  unfold listed. rewrite api_items_eq, fetch_rows_eq.
  destruct (sc (trips s)); [left; reflexivity|].
  destruct (sc (S (trips s))); [left; reflexivity | right; reflexivity].
Qed.

Lemma enrich_from_length (rows : list row) :
  forall i, List.length (enrich_from i rows) = List.length rows.
Proof.
  induction rows as [|r rows IH]; intros i; simpl; [reflexivity|].
  rewrite IH. reflexivity.
Qed.

Lemma in_enrich_from (e : enriched_item) (rows : list row) :
  forall i, In e (enrich_from i rows) -> exists j r, In r rows /\ e = enrich j r.
Proof.
  induction rows as [|r rows IH]; intros i H; simpl in H; [contradiction|].
  destruct H as [<-|H].
  - exists i, r. split; [now left | reflexivity].
  - destruct (IH _ H) as [j [r' [Hr' E]]]. exists j, r'. split; [now right|exact E].
Qed.

(** What the rows of a page give, the items of the listing have. *)
Lemma listed_forall (P : enriched_item -> Prop) (a : items_args) (sc : script)
  (s : session) :
  (forall i r,
     In r (from_where (tables s) (parse_username a) (parse_hide_confirmed a)) ->
     P (enrich i r)) ->
  Forall P (listed a sc s).
Proof.
  intros H. destruct (listed_cases a sc s) as [E|E]; rewrite E; [constructor|].
  apply Forall_forall. intros e He.
  apply in_enrich_from in He. destruct He as [j [r [Hr ->]]].
  apply H. eapply in_select_items. exact Hr.
Qed.

(** The clamped limit lies between 1 and 1000 whatever the client asks
    for; a listing never holds more items than the clamped limit, and when
    the store serves it, it holds as many as that limit or as there are
    eligible items from the clamped offset on, whichever is smaller. *)
Theorem listing_size_is_bounded (a : items_args) (sc : script) (s : session) :
  1 <= page_limit a <= 1000 /\
  0 <= page_offset a /\
  Z.of_nat (List.length (listed a sc s)) <= page_limit a /\
  (healthy_between sc (trips s) (trips s + 2) ->
   List.length (listed a sc s)
   = Nat.min (Z.to_nat (page_limit a))
       (List.length (eligible (tables s) (parse_username a)
                       (parse_hide_confirmed a))
        - Z.to_nat (page_offset a))).
Proof.
  pose proof (page_limit_range a) as Hr.
  pose proof (page_offset_range a) as Ho.
  split; [exact Hr|]. split; [exact Ho|]. split.
  - destruct (listed_cases a sc s) as [E|E]; rewrite E; simpl; [lia|].
    unfold enrich_all. rewrite enrich_from_length.
    unfold select_items. rewrite length_firstn. lia.
  - intros H. unfold listed. rewrite api_items_healthy by exact H. simpl.
    unfold enrich_all. rewrite enrich_from_length.
    unfold select_items. rewrite length_firstn, length_skipn. reflexivity.
Qed.

Lemma listing_size_is_bounded_witness :
  List.length (listed (page_of None None 0 1) (always 5)
                 (mk_session three_db 0)) = 1%nat /\
  List.length (listed (page_of None None 5000 1) (always 5)
                 (mk_session three_db 0)) = 2%nat.
Proof.
  split.
  - apply (listing_size_is_bounded (page_of None None 0 1) (always 5)
             (mk_session three_db 0)).
    intros k _. discriminate.
  - apply (listing_size_is_bounded (page_of None None 5000 1) (always 5)
             (mk_session three_db 0)).
    intros k _. discriminate.
Defined.

(** As soon as one of [limit] and [offset] does not read as an integer, the
    listing is the one of a request without either: the first 30 eligible
    items, the other argument being dropped as well. *)
Theorem malformed_paging_falls_back_to_defaults (a : items_args) (sc : script)
  (s : session) :
  arg_limit a = ArgNotInt \/ arg_offset a = ArgNotInt ->
  api_items a sc s
  = api_items (mk_items_args ArgAbsent ArgAbsent (arg_username a)
                 (arg_hideConfirmed a)) sc s /\
  page_limit a = 30 /\ page_offset a = 0.
Proof.
  intros H.
  assert (Hp : parse_page a = (30, 0)).
  { unfold parse_page. destruct H as [-> | ->]; simpl.
    - reflexivity.
    - destruct (arg_limit a); reflexivity. }
  split; [|unfold page_limit, page_offset; rewrite Hp; auto].
  rewrite !api_items_eq, !fetch_rows_eq.
  unfold page_limit, page_offset. rewrite Hp. reflexivity.
Qed.

Lemma malformed_paging_falls_back_to_defaults_witness :
  api_items (mk_items_args (ArgInt 1) ArgNotInt None None) (always 5)
    (mk_session three_db 0)
  = api_items (list_for None) (always 5) (mk_session three_db 0) /\
  List.length (listed (mk_items_args (ArgInt 1) ArgNotInt None None) (always 5)
                 (mk_session three_db 0)) = 3%nat.
Proof.
  split.
  - apply (malformed_paging_falls_back_to_defaults
             (mk_items_args (ArgInt 1) ArgNotInt None None) (always 5)
             (mk_session three_db 0)).
    right. reflexivity.
  - reflexivity.
Defined.

Lemma usable_text_not_empty (t : string) :
  usable_text (Some t) = true -> Str.is_empty t = false.
Proof.
  destruct t; simpl; [discriminate | reflexivity].
Qed.

(** No listed item has a recognized text that is empty, made of spaces only
    or a spelling of NONE. *)
Theorem listed_items_have_usable_text (a : items_args) (sc : script)
  (s : session) :
  Forall (fun e => e_inputText e <> "" /\
                   Str.TRIM (e_inputText e) <> "" /\
                   Str.UPPER (e_inputText e) <> "NONE")
         (listed a sc s).
Proof.
  apply listed_forall. intros i r Hr.
  apply in_from_where in Hr. destruct Hr as [Hw _].
  unfold where_clause in Hw.
  apply andb_prop in Hw. destruct Hw as [Hw _].
  apply andb_prop in Hw. destruct Hw as [Hu _].
  unfold enrich. simpl.
  destruct (r_score_audio_input_text r) as [t|]; [|discriminate].
  pose proof (usable_text_not_empty t Hu) as Ht.
  unfold str_or. rewrite Ht.
  simpl in Hu. apply andb_prop in Hu. destruct Hu as [H1 H2].
  apply negb_true_iff in H1. apply negb_true_iff in H2.
  apply String.eqb_neq in H2.
  repeat split; try assumption.
  - intros ->. discriminate.
  - intros E. rewrite E in H1. discriminate.
Qed.

Lemma in_left_join (f : item) (ms : list annotation) (r : row) :
  In r (left_join f ms) ->
  item_of_row r = f /\
  ((ms = [] /\ saved_fix_text r = None /\ saved_confirmed r = None) \/
   exists o, In o ms /\ saved_fix_text r = Some (o_fix_text o)
             /\ saved_confirmed r = Some (o_confirmed o)).
Proof.
  destruct f as [fid path text]. unfold left_join, item_of_row.
  destruct ms as [|o0 ms]; simpl.
  - intros [<-|[]]. simpl. auto.
  - intros [<-|H]; simpl.
    + split; [reflexivity|]. right. exists o0. auto.
    + apply in_map_iff in H. destruct H as [o [<- Ho]]. simpl.
      split; [reflexivity|]. right. exists o. auto.
Qed.

Lemma in_o_user (out : list annotation) (u : string) (f : item)
  (o : annotation) :
  In o (o_user out u f) <->
  In o out /\ id_oid f = Some (o_id_oid o) /\ o_username o = u.
Proof.
  unfold o_user. rewrite filter_In, andb_true_iff, String.eqb_eq.
  unfold oid_matches. destruct (id_oid f) as [x|].
  - rewrite String.eqb_eq. split.
    + intros [H [-> ->]]. auto.
    + intros [H [E ->]]. injection E as ->. auto.
  - split; [intros [_ [H _]]; discriminate | intros [_ [H _]]; discriminate].
Qed.

(** Every listed item is shown either without saved state, or with the
    saved state of a row of [output] that belongs to the requesting user and
    to that very item: the rows of other users never show.  In particular a
    user without any row sees every item with its recognized text and
    unconfirmed. *)
Theorem listing_shows_only_own_rows (a : items_args) (sc : script)
  (s : session) :
  Forall (fun e => plain e \/
                   exists o, In o (output (tables s)) /\
                             o_username o = parse_username a /\ shows o e)
         (listed a sc s) /\
  ((forall o, In o (output (tables s)) -> o_username o <> parse_username a) ->
   Forall plain (listed a sc s)).
Proof.
  assert (H : forall i r,
            In r (from_where (tables s) (parse_username a)
                    (parse_hide_confirmed a)) ->
            plain (enrich i r) \/
            exists o, In o (output (tables s)) /\
                      o_username o = parse_username a /\ shows o (enrich i r)).
  { intros i r Hr. apply in_from_where in Hr.
    destruct Hr as [_ [f [_ Hr]]].
    apply in_left_join in Hr. destruct Hr as [Hf [[_ [E1 E2]]|[o [Ho [E1 E2]]]]].
    - left. unfold plain, enrich. rewrite E1, E2. simpl. auto.
    - right. exists o. apply in_o_user in Ho. destruct Ho as [Ho [Hid Hu]].
      split; [exact Ho|]. split; [exact Hu|].
      unfold shows, enrich. rewrite E1, E2. simpl.
      assert (Hrid : r_id_oid r = Some (o_id_oid o)).
      { rewrite <- Hid, <- Hf. reflexivity. }
      rewrite Hrid. auto. }
  split.
  - apply listed_forall. exact H.
  - intros Hno. apply listed_forall. intros i r Hr.
    destruct (H i r Hr) as [Hp|[o [Ho [Hu _]]]]; [exact Hp|].
    exfalso. exact (Hno o Ho Hu).
Qed.

Lemma listing_shows_only_own_rows_witness :
  Forall plain (listed (list_for (Some "dave")) (always 5)
                  (mk_session two_db 0)) /\
  List.length (listed (list_for (Some "dave")) (always 5)
                 (mk_session two_db 0)) = 1%nat.
Proof.
  split; [|reflexivity].
  apply (listing_shows_only_own_rows (list_for (Some "dave")) (always 5)
           (mk_session two_db 0)).
  simpl. intros o [<-|[<-|[]]]; discriminate.
Defined.

(** With hideConfirmed set, on a table whose confirmed flags are 0 or 1 (as
    the save operation writes them), no listed item is confirmed. *)
Theorem hide_confirmed_lists_unconfirmed_only (a : items_args) (sc : script)
  (s : session) :
  parse_hide_confirmed a = true ->
  Forall written_row (output (tables s)) ->
  Forall (fun e => e_confirmed e = false) (listed a sc s).
Proof.
  intros Hh Hwf. apply listed_forall. intros i r Hr.
  apply in_from_where in Hr. destruct Hr as [Hw [f [_ Hr]]].
  unfold where_clause in Hw. rewrite Hh in Hw.
  apply andb_prop in Hw. destruct Hw as [_ Hnc].
  apply in_left_join in Hr. destruct Hr as [_ [[_ [_ E2]]|[o [Ho [_ E2]]]]].
  - unfold enrich. rewrite E2. reflexivity.
  - apply in_o_user in Ho. destruct Ho as [Ho _].
    rewrite Forall_forall in Hwf. destruct (Hwf o Ho) as [_ Hc].
    unfold not_confirmed in Hnc. rewrite E2 in Hnc.
    apply negb_true_iff, Z.eqb_neq in Hnc.
    unfold enrich. rewrite E2. simpl.
    destruct Hc as [Hc|Hc]; [rewrite Hc; reflexivity | contradiction].
Qed.

Lemma hide_confirmed_lists_unconfirmed_only_witness :
  Forall (fun e => e_confirmed e = false)
    (listed (mk_items_args ArgAbsent ArgAbsent (Some "bob") (Some "TRUE"))
       (always 5) (mk_session two_db 0)) /\
  List.length
    (listed (mk_items_args ArgAbsent ArgAbsent (Some "bob") (Some "TRUE"))
       (always 5) (mk_session two_db 0)) = 1%nat /\
  listed (mk_items_args ArgAbsent ArgAbsent (Some "alice") (Some "TRUE"))
    (always 5) (mk_session two_db 0) = [].
Proof.
  split; [|split; reflexivity].
  apply (hide_confirmed_lists_unconfirmed_only
           (mk_items_args ArgAbsent ArgAbsent (Some "bob") (Some "TRUE"))
           (always 5) (mk_session two_db 0)).
  - reflexivity.
  - unfold written_row. simpl.
    repeat (constructor; [split; [discriminate | auto] | ]). constructor.
Defined.

(* ------------------------------------------------------------------ *)
(** ** What a save keeps *)

(** The tables after a request: those of the view, run after [_init]. *)
Lemma dispatch_tables (login : list credential) (rt : route) (sc : script)
  (s : session) :
  exists n0,
  tables (snd (dispatch login rt sc s))
  = match rt with
    | Annotate b =>
        tables (snd (api_annotations b sc (mk_session (tables s) n0)))
    | _ => tables s
    end.
Proof.
  unfold dispatch, bind.
  destruct (_init_eq sc s) as [n0 E0]. rewrite E0. exists n0.
  destruct rt as [data|a|b|]; unfold ret.
  - destruct (api_login_eq login data sc (mk_session (tables s) n0))
      as [r [n [E _]]]. rewrite E. destruct r; reflexivity.
  - destruct (api_items_done a sc (mk_session (tables s) n0)) as [r [n E]].
    rewrite E. reflexivity.
  - destruct (api_annotations b sc (mk_session (tables s) n0))
      as [[r|] s']; reflexivity.
  - destruct (api_health_eq sc (mk_session (tables s) n0)) as [ok [n E]].
    rewrite E. reflexivity.
Qed.

Lemma dispatch_invariant (P : list annotation -> Prop)
  (login : list credential) (rt : route) (sc : script) (s : session) :
  (forall oid u t c now out, oid <> "" -> (c = 0 \/ c = 1) -> P out ->
     P (upsert oid u t c now out)) ->
  P (output (tables s)) ->
  P (output (tables (snd (dispatch login rt sc s)))).
Proof.
  intros Hstep H0.
  destruct (dispatch_tables login rt sc s) as [n0 E]. rewrite E.
  destruct rt as [data|a|b|]; try exact H0.
  apply api_annotations_invariant; assumption.
Qed.

Lemma upsert_written (oid u fx : string) (c now : Z) (out : list annotation) :
  oid <> "" -> c = 0 \/ c = 1 ->
  Forall written_row out -> Forall written_row (upsert oid u fx c now out).
Proof.
  intros Hoid Hc. induction 1 as [|o out Ho Hout IH]; simpl.
  - constructor; [split; assumption | constructor].
  - destruct (same_key oid u o).
    + constructor; [|exact Hout]. destruct Ho as [Hid _]. split; assumption.
    + constructor; assumption.
Qed.

(** Whatever the requests and whatever the store answers, every row of
    [output] keeps a non-empty item identifier and a confirmed flag that is
    0 or 1, once that holds (as on an empty table). *)
Theorem rows_stay_well_formed (login : list credential) (rt : route)
  (sc : script) (s : session) :
  Forall written_row (output (tables s)) ->
  Forall written_row (output (tables (snd (dispatch login rt sc s)))).
Proof.
  apply (dispatch_invariant (Forall written_row)).
  intros oid u t c now out Hoid Hc H. apply upsert_written; assumption.
Qed.

Lemma rows_stay_well_formed_witness :
  Forall written_row
    (output (tables (snd (dispatch []
       (Annotate (Batch (mk_payload (str "bob")
                           [Obj blank_entry; Obj alice_entry; Obj plain_entry])))
       (always 7) (mk_session fresh_db 0))))).
Proof.
  apply (rows_stay_well_formed []
           (Annotate (Batch (mk_payload (str "bob")
                               [Obj blank_entry; Obj alice_entry;
                                Obj plain_entry])))
           (always 7) (mk_session fresh_db 0)).
  constructor.
Defined.

Lemma upsert_o_cnt (oid u fx : string) (c now : Z) (fid : option string)
  (out : list annotation) :
  o_cnt (upsert oid u fx c now out) fid
  = (o_cnt out fid
     + (if existsb (same_key oid u) out then 0
        else if oid_matches fid oid then 1 else 0))%nat.
Proof.
  unfold o_cnt. induction out as [|o out IH]; simpl.
  - destruct (oid_matches fid oid); reflexivity.
  - destruct (same_key oid u o) eqn:E; simpl.
    + destruct (oid_matches fid (o_id_oid o)); simpl; lia.
    + destruct (oid_matches fid (o_id_oid o)); simpl; rewrite IH; lia.
Qed.

Lemma keys_incl_cross_user_count (out out' : list annotation) (oid : string) :
  incl (keys out) (keys out') ->
  (cross_user_count out oid <= cross_user_count out' oid)%nat.
Proof.
  intros H. unfold cross_user_count.
  apply NoDup_incl_length; [apply NoDup_nodup|].
  intros u Hu. apply in_annotators. apply H. apply in_annotators. exact Hu.
Qed.

(** No request removes a key of [output] or lowers a count: every
    (item, user) pair that holds a row still holds one afterwards, the
    COUNT( * ) of every item and its number of distinct annotators can only
    grow, so an item that has reached the quota of 3 stays at it. *)
Theorem quota_only_grows (login : list credential) (rt : route) (sc : script)
  (s : session) :
  let out := output (tables s) in
  let out' := output (tables (snd (dispatch login rt sc s))) in
  incl (keys out) (keys out') /\
  (forall fid, o_cnt out fid <= o_cnt out' fid)%nat /\
  (forall oid, cross_user_count out oid <= cross_user_count out' oid)%nat /\
  (forall oid, 3 <= cross_user_count out oid -> 3 <= cross_user_count out' oid)%nat.
Proof.
  cbv zeta.
  assert (H : incl (keys (output (tables s)))
                (keys (output (tables (snd (dispatch login rt sc s))))) /\
              forall fid, (o_cnt (output (tables s)) fid
                           <= o_cnt (output (tables (snd (dispatch login rt sc s))))
                                fid)%nat).
  { apply (dispatch_invariant
             (fun o' => incl (keys (output (tables s))) (keys o') /\
                        forall fid, (o_cnt (output (tables s)) fid
                                     <= o_cnt o' fid)%nat)).
    - intros oid u t c now out _ _ [Hk Hc]. split.
      + intros k Hin. apply upsert_keeps_key, Hk, Hin.
      + intros fid. rewrite upsert_o_cnt. specialize (Hc fid). lia.
    - split; [apply incl_refl | intros; lia]. }
  destruct H as [Hk Hc].
  split; [exact Hk|]. split; [exact Hc|].
  assert (Hx : forall oid,
            (cross_user_count (output (tables s)) oid
             <= cross_user_count
                  (output (tables (snd (dispatch login rt sc s)))) oid)%nat)
    by (intros oid; apply keys_incl_cross_user_count, Hk).
  split; [exact Hx|].
  intros oid H3. specialize (Hx oid). lia.
Qed.

Lemma upsert_keeps_other_row (oid u fx : string) (c now : Z) (o : annotation)
  (out : list annotation) :
  In o out -> (o_id_oid o, o_username o) <> (oid, u) ->
  In o (upsert oid u fx c now out).
Proof.
  intros Hin Hk. induction out as [|x out IH]; simpl; [contradiction|].
  destruct (same_key oid u x) eqn:E.
  - destruct Hin as [->|Hin]; [|right; exact Hin].
    apply same_key_true in E. contradiction.
  - destruct Hin as [->|Hin]; [now left | right; apply IH; exact Hin].
Qed.

Lemma in_written_keys (top : string) (e : element) (items : list element)
  (oid u t : string) (c : Z) :
  In e items -> plan_of top e = Writes oid u t c ->
  In (oid, u) (written_keys top items).
Proof.
  induction items as [|x items IH]; simpl; [contradiction|].
  intros [->|Hin] Hp.
  - rewrite Hp. now left.
  - destruct (plan_of top x); try (apply IH; assumption).
    right. apply IH; assumption.
Qed.

(** A save changes no row but those of the keys it writes: a row whose
    (item, user) pair is the key of no written element of the batch is in
    the table afterwards as it was, text, flag and timestamp, whether the
    batch succeeds or fails on the way. *)
Theorem save_leaves_other_rows_alone (data : payload) (sc : script)
  (s : session) (o : annotation) :
  In o (output (tables s)) ->
  (forall top, top_username_of data = Some top ->
     ~ In (o_id_oid o, o_username o) (written_keys top (data_items data))) ->
  In o (output (tables (snd (api_annotations (Batch data) sc s)))).
Proof.
  intros Hin Hk. rewrite api_annotations_eq.
  destruct (sc (trips s)); [exact Hin|].
  destruct (sc (1 + trips s)%nat); [exact Hin|].
  destruct (sc (2 + trips s)%nat); [exact Hin|].
  destruct (top_username_of data) as [top|]; [|exact Hin].
  specialize (Hk top eq_refl).
  pose proof (save_loop_invariant (fun out => In o out) top (data_items data)
                sc) as Hl.
  specialize (Hl (fun e oid u t c now out He Hp Hout =>
                    upsert_keeps_other_row oid u t c now o out Hout
                      (fun E => Hk ltac:(rewrite E;
                                         exact (in_written_keys top e _ oid u t c
                                                  He Hp))))
              0%nat (mk_session (tables s) (3 + trips s)) Hin).
  destruct (save_loop _ _ _ _ _) as [[n|] s']; exact Hl.
Qed.

Lemma save_leaves_other_rows_alone_witness :
  In (note "42" "bob" "hello!" 0)
     (output (tables (snd (api_annotations
        (Batch (mk_payload (str "bob")
                  [Obj blank_entry; Obj alice_entry; Obj plain_entry]))
        (always 7) (mk_session two_db 0))))).
Proof.
  apply (save_leaves_other_rows_alone
           (mk_payload (str "bob")
              [Obj blank_entry; Obj alice_entry; Obj plain_entry])
           (always 7) (mk_session two_db 0) (note "42" "bob" "hello!" 0)).
  - simpl. auto.
  - intros top Ht. injection Ht as <-.
    vm_compute. intros [H|[H|[]]]; discriminate H.
Defined.

(* ------------------------------------------------------------------ *)
(** ** The outcome of a batch *)

Lemma commit_all_keeps_other_row (sc : script) (top : string) (o : annotation)
  (items : list element) :
  forall n out,
  In o out ->
  ~ In (o_id_oid o, o_username o) (written_keys top items) ->
  In o (commit_all sc n top items out).
Proof.
  induction items as [|e items IH]; intros n out Hin Hk; simpl in *;
    [exact Hin|].
  destruct (plan_of top e) as [|oid u t c|b]; try (apply IH; assumption).
  apply IH.
  - apply upsert_keeps_other_row; [exact Hin|].
    intros E. apply Hk. left. symmetry. exact E.
  - intros H. apply Hk. right. exact H.
Qed.

(** Within a batch the last entry for a key wins: when no later written
    element has the key of [e], the table holds after the batch the row of
    [e], with its text, its flag and the time of its own write. *)
Theorem last_entry_for_a_key_wins (data : payload) (top : string)
  (pre post : list element) (e : element) (oid u text : string) (c : Z)
  (sc : script) (s : session) :
  data_items data = (pre ++ e :: post)%list ->
  top_username_of data = Some top ->
  plan_of top e = Writes oid u text c ->
  ~ In (oid, u) (written_keys top post) ->
  forallb (sound top) (data_items data) = true ->
  healthy_between sc (trips s)
    (trips s + 3 + count_written top (data_items data)) ->
  In (mk_annotation oid u text c
        (time_at sc (3 + trips s + count_written top pre)))
     (output (tables (snd (api_annotations (Batch data) sc s)))).
Proof.
  intros Hitems Ht Hp Hlast Hs H.
  rewrite (api_annotations_healthy data top sc s Ht Hs H). simpl.
  rewrite Hitems, commit_all_app. cbn [commit_all]. rewrite Hp.
  apply commit_all_keeps_other_row; [apply upsert_in_row | exact Hlast].
Qed.

Lemma last_entry_for_a_key_wins_witness :
  In (mk_annotation "42" "alice" "second" 0 7)
     (output (tables (snd (api_annotations
        (Batch (mk_payload (str "alice")
           [Obj (mk_entry (str "42") None (str "first") None None yes);
            Obj (mk_entry (str (" 42" ++ nbsp)) None (str "second") None None
                   None)]))
        (always 7) (mk_session fresh_db 0))))).
Proof.
  apply (last_entry_for_a_key_wins
    (mk_payload (str "alice")
       [Obj (mk_entry (str "42") None (str "first") None None yes);
        Obj (mk_entry (str (" 42" ++ nbsp)) None (str "second") None None None)])
    "alice"
    [Obj (mk_entry (str "42") None (str "first") None None yes)] []
    (Obj (mk_entry (str (" 42" ++ nbsp)) None (str "second") None None None))
    "42" "alice" "second" 0
    (always 7) (mk_session fresh_db 0)).
  - reflexivity.
  - reflexivity.
  - reflexivity.
  - simpl. tauto.
  - reflexivity.
  - intros k _. discriminate.
Defined.

Lemma first_refusal (sc : script) (n m : nat) :
  healthy_between sc n (n + m) \/
  exists k, (k < m)%nat /\ healthy_between sc n (n + k)
            /\ sc (n + k)%nat = Refused.
Proof.
  induction m as [|m IH].
  - left. intros k Hk. lia.
  - destruct IH as [H|[k [Hk [H Hr]]]].
    + destruct (sc (n + m)%nat) eqn:E.
      * right. exists m. split; [lia|]. split; assumption.
      * left. intros k Hk.
        destruct (Nat.eq_dec k (n + m)) as [->|Hne].
        -- rewrite E. discriminate.
        -- apply H. lia.
    + right. exists k. split; [lia|]. split; assumption.
Qed.

(** Either the loop meets no element that raises and no refused write, or
    it raises. *)
Lemma save_loop_outcome (top : string) (items : list element) (sc : script) :
  forall saved s,
  (forallb (sound top) items = true /\
   healthy_between sc (trips s) (trips s + count_written top items)) \/
  fst (save_loop top items saved sc s) = Raised.
Proof.
  unfold count_written.
  induction items as [|e items IH]; intros saved s.
  - left. split; [reflexivity|]. intros k Hk. simpl in Hk. lia.
  - rewrite save_loop_step. simpl. unfold sound at 1, written at 1.
    destruct (plan_of top e) as [|oid u t c|[|]]; simpl;
      try (right; reflexivity); [apply IH|].
    destruct (sc (trips s)) eqn:E; [right; reflexivity|].
    destruct (IH (S saved)
                (mk_session
                   (mk_database (full_table1 (tables s))
                      (upsert oid u t c now (output (tables s))))
                   (S (trips s)))) as [[Hs H]|Hr]; [|right; exact Hr].
    left. split; [exact Hs|]. simpl in H.
    intros k Hk. destruct (Nat.eq_dec k (trips s)) as [->|Hne].
    + rewrite E. discriminate.
    + apply H. lia.
Qed.

(** A request for a save has one of three answers.  A body that is no
    object is answered 500 and a body whose ["items"] is no list 400, both
    without a round trip.  A batch is answered [saved = n], n being the
    number of its written elements, exactly when its envelope user is a
    string or falsy, none of its elements raises, and the store serves the
    three opening round trips and every write; it is answered 500
    otherwise.  There is no answer with a partial count. *)
Theorem save_answers_count_or_error (b : body) (sc : script) (s : session) :
  match b with
  | NotAnObject => api_annotations b sc s = (Done (Error 500), s)
  | ItemsNotAList => api_annotations b sc s = (Done (Error 400), s)
  | Batch data =>
      (exists top,
         top_username_of data = Some top /\
         forallb (sound top) (data_items data) = true /\
         healthy_between sc (trips s)
           (trips s + 3 + count_written top (data_items data)) /\
         fst (api_annotations b sc s)
         = Done (Saved (count_written top (data_items data)))) \/
      (~ (exists top,
            top_username_of data = Some top /\
            forallb (sound top) (data_items data) = true /\
            healthy_between sc (trips s)
              (trips s + 3 + count_written top (data_items data))) /\
       fst (api_annotations b sc s) = Done (Error 500))
  end.
Proof.
  destruct b as [| |data]; [reflexivity | reflexivity |].
  destruct (top_username_of data) as [top|] eqn:Ht.
  2:{ right. split; [intros [top [H _]]; discriminate|].
      rewrite api_annotations_eq, Ht.
      destruct (sc (trips s)); [reflexivity|].
      destruct (sc (1 + trips s)%nat); [reflexivity|].
      destruct (sc (2 + trips s)%nat); reflexivity. }
  destruct (first_refusal sc (trips s) 3) as [H3|[k [Hk [H Hr]]]].
  2:{ right. split.
      - intros [top' [_ [_ Hall]]]. apply (Hall (trips s + k)%nat); [lia|exact Hr].
      - apply (early_failure_writes_nothing data sc s k Hk H Hr). }
  destruct (save_loop_outcome top (data_items data) sc 0
              (mk_session (tables s) (3 + trips s))) as [[Hs H]|Hr].
  - left. exists top. split; [reflexivity|]. split; [exact Hs|].
    assert (Hall : healthy_between sc (trips s)
                     (trips s + 3 + count_written top (data_items data))).
    { intros k Hk. destruct (Nat.lt_ge_cases k (trips s + 3)) as [Hlt|Hge].
      - apply H3. lia.
      - apply H. simpl. lia. }
    split; [exact Hall|].
    rewrite (api_annotations_healthy data top sc s Ht Hs Hall). reflexivity.
  - right. split.
    + intros [top' [Ht' [Hs Hall]]]. injection Ht' as <-.
      rewrite (save_loop_healthy top (data_items data) sc 0
                 (mk_session (tables s) (3 + trips s)) Hs) in Hr.
      * discriminate Hr.
      * simpl. intros k Hk. apply Hall. lia.
    + rewrite api_annotations_eq, Ht.
      destruct (sc (trips s)); [reflexivity|].
      destruct (sc (1 + trips s)%nat); [reflexivity|].
      destruct (sc (2 + trips s)%nat); [reflexivity|].
      destruct (save_loop _ _ _ _ _) as [[n|] s']; [discriminate Hr|reflexivity].
Qed.

Lemma not_empty_is_empty (v : string) : v <> "" -> Str.is_empty v = false.
Proof. destruct v; [contradiction | reflexivity]. Qed.

Lemma single_written (top : string) (e : element) (oid u t : string) (c : Z) :
  plan_of top e = Writes oid u t c ->
  forallb (sound top) [e] = true /\ count_written top [e] = 1%nat.
Proof.
  intros Hp. unfold count_written. cbn [forallb filter].
  unfold sound, written. rewrite Hp. split; reflexivity.
Qed.

Lemma single_skipped (top : string) (e : element) :
  plan_of top e = Skips ->
  forallb (sound top) [e] = true /\ count_written top [e] = 0%nat.
Proof.
  intros Hp. unfold count_written. cbn [forallb filter].
  unfold sound, written. rewrite Hp. split; reflexivity.
Qed.

(** A field made of white space only is not the same as an absent one: it
    does not fall back.  An entry whose ["id"] is blank is skipped although
    its ["id_$oid"] names an item; an entry whose ["username"] is blank is
    saved under the empty user although the envelope names a user. *)
Theorem blank_fields_do_not_fall_back (user : option json) (top : string)
  (it : entry) (v : string) (sc : script) (s : session) :
  v <> "" -> Str.strip v = "" ->
  top_username_of (mk_payload user [Obj it]) = Some top ->
  healthy_between sc (trips s) (trips s + 4) ->
  (it_id it = Some (JStr v) ->
   fst (api_annotations (Batch (mk_payload user [Obj it])) sc s)
   = Done (Saved 0) /\
   tables (snd (api_annotations (Batch (mk_payload user [Obj it])) sc s))
   = tables s) /\
  (it_username it = Some (JStr v) -> has_oid it = true ->
   forall text, bound_text (entry_fix_text it) = Some text ->
   fst (api_annotations (Batch (mk_payload user [Obj it])) sc s)
   = Done (Saved 1) /\
   exists o, In o (output (tables (snd (api_annotations
                                          (Batch (mk_payload user [Obj it]))
                                          sc s)))) /\
             o_id_oid o = entry_oid it /\ o_username o = "" /\
             o_fix_text o = text).
Proof.
  intros Hv Hs Ht H. pose proof (not_empty_is_empty v Hv) as Hne. split.
  - intros Hid.
    assert (Hno : has_oid it = false).
    { unfold has_oid, entry_oid. rewrite Hid. simpl. rewrite Hne. simpl.
      rewrite Hs. reflexivity. }
    assert (Hp : plan_of top (Obj it) = Skips)
      by (unfold plan_of; rewrite Hno; reflexivity).
    destruct (single_skipped top (Obj it) Hp) as [Hsd Hc].
    rewrite (api_annotations_healthy (mk_payload user [Obj it]) top sc s Ht Hsd)
      by (cbn [data_items]; rewrite Hc; intros k Hk; apply H; lia).
    cbn [fst snd tables data_items commit_all]. rewrite Hc, Hp.
    destruct s as [[ft out] n]. auto.
  - intros Hu Hit text Hb.
    assert (Hname : entry_username top it = Some "").
    { unfold entry_username. rewrite Hu. simpl. rewrite Hne. simpl.
      rewrite Hs. reflexivity. }
    assert (Hp : plan_of top (Obj it)
                 = Writes (entry_oid it) "" text (entry_confirmed it))
      by (unfold plan_of; rewrite Hit, Hname, Hb; reflexivity).
    destruct (single_written top (Obj it) _ _ _ _ Hp) as [Hsd Hc].
    rewrite (api_annotations_healthy (mk_payload user [Obj it]) top sc s Ht Hsd)
      by (cbn [data_items]; rewrite Hc; intros k Hk; apply H; lia).
    cbn [fst snd tables output data_items commit_all]. rewrite Hc, Hp.
    split; [reflexivity|].
    eexists. split; [apply upsert_in_row|]. simpl. auto.
Qed.

Lemma blank_fields_do_not_fall_back_witness :
  fst (api_annotations
         (Batch (mk_payload (str "alice")
                   [Obj (mk_entry (str (nbsp ++ " ")) (str "42")
                           (str "Hello.") None None None)]))
         (always 7) (mk_session fresh_db 0)) = Done (Saved 0) /\
  tables (snd (api_annotations
         (Batch (mk_payload (str "alice")
                   [Obj (mk_entry (str (nbsp ++ " ")) (str "42")
                           (str "Hello.") None None None)]))
         (always 7) (mk_session fresh_db 0))) = fresh_db.
Proof.
  apply (blank_fields_do_not_fall_back (str "alice") "alice"
           (mk_entry (str (nbsp ++ " ")) (str "42") (str "Hello.") None None
              None)
           (nbsp ++ " ") (always 7) (mk_session fresh_db 0));
    [discriminate | reflexivity | reflexivity | intros k _; discriminate
     | reflexivity].
Defined.

(* ------------------------------------------------------------------ *)
(** ** Saving, then listing *)

Lemma lstrip_eq (s : string) :
  Str.lstrip s = match Str.space_prefix s with
                 | Some r => Str.lstrip r
                 | None => s
                 end.
Proof.
  destruct s as [|c s1]; [reflexivity|].
  cbn [Str.lstrip Str.space_prefix].
  destruct (Str.py_space c); [reflexivity|].
  destruct s1 as [|d s2]; [reflexivity|].
  destruct (Str.py_space2 c d); [reflexivity|].
  destruct s2 as [|e s3]; [reflexivity|].
  destruct (Str.py_space3 c d e); reflexivity.
Qed.

Lemma space_prefix_shorter (s r : string) :
  Str.space_prefix s = Some r -> (String.length r < String.length s)%nat.
Proof.
  destruct s as [|c s1]; [discriminate|].
  cbn [Str.space_prefix].
  destruct (Str.py_space c); [intros E; injection E as <-; simpl; lia|].
  destruct s1 as [|d s2]; [discriminate|].
  destruct (Str.py_space2 c d); [intros E; injection E as <-; simpl; lia|].
  destruct s2 as [|e s3]; [discriminate|].
  destruct (Str.py_space3 c d e); [|discriminate].
  intros E; injection E as <-; simpl; lia.
Qed.

(** What [lstrip] leaves does not start with white space. *)
Lemma lstrip_clean (s : string) : Str.space_prefix (Str.lstrip s) = None.
Proof.
  assert (H : forall n s, (String.length s < n)%nat ->
                          Str.space_prefix (Str.lstrip s) = None).
  { induction n as [|n IH]; intros t Hn; [lia|].
    rewrite lstrip_eq. destruct (Str.space_prefix t) as [r|] eqn:E.
    - apply IH. apply space_prefix_shorter in E. lia.
    - exact E. }
  apply (H (S (String.length s))). lia.
Qed.

Lemma lstrip_of_clean (s : string) :
  Str.space_prefix s = None -> Str.lstrip s = s.
Proof. intros H. rewrite lstrip_eq, H. reflexivity. Qed.

Lemma rstrip_is_prefix (s : string) : exists w, s = Str.rstrip s ++ w.
Proof.
  induction s as [|c s [w IH]]; [exists ""; reflexivity|].
  cbn [Str.rstrip].
  destruct (Str.one_space (String c (Str.rstrip s))).
  - exists (String c s). reflexivity.
  - exists w. simpl. rewrite <- IH. reflexivity.
Qed.

Lemma space_prefix_app (p r w : string) :
  Str.space_prefix p = Some r -> Str.space_prefix (p ++ w) = Some (r ++ w).
Proof.
  destruct p as [|c s1]; [discriminate|].
  cbn [Str.space_prefix append].
  destruct (Str.py_space c); [intros E; injection E as <-; reflexivity|].
  destruct s1 as [|d s2]; [discriminate|].
  cbn [append].
  destruct (Str.py_space2 c d); [intros E; injection E as <-; reflexivity|].
  destruct s2 as [|e s3]; [discriminate|].
  cbn [append].
  destruct (Str.py_space3 c d e); [|discriminate].
  intros E; injection E as <-; reflexivity.
Qed.

Lemma rstrip_clean (s : string) :
  Str.space_prefix s = None -> Str.space_prefix (Str.rstrip s) = None.
Proof.
  intros H. destruct (rstrip_is_prefix s) as [w Hw].
  destruct (Str.space_prefix (Str.rstrip s)) as [r|] eqn:E; [|reflexivity].
  apply (space_prefix_app _ _ w) in E. rewrite <- Hw in E. congruence.
Qed.

Lemma rstrip_idem (s : string) : Str.rstrip (Str.rstrip s) = Str.rstrip s.
Proof.
  induction s as [|c s IH]; [reflexivity|].
  cbn [Str.rstrip].
  destruct (Str.one_space (String c (Str.rstrip s))) eqn:E; [reflexivity|].
  cbn [Str.rstrip]. rewrite IH, E. reflexivity.
Qed.

(** [s.strip().strip()] is [s.strip()]. *)
Lemma strip_idem (s : string) : Str.strip (Str.strip s) = Str.strip s.
Proof.
  unfold Str.strip.
  rewrite (lstrip_of_clean (Str.rstrip (Str.lstrip s))).
  - apply rstrip_idem.
  - apply rstrip_clean, lstrip_clean.
Qed.

Lemma str_or_some_empty (u : string) : str_or (Some u) "" = u.
Proof. destruct u; reflexivity. Qed.

(** The user a row is written under is a trimmed string. *)
Lemma written_user_stripped (top : string) (e : element) (oid u t : string)
  (c : Z) :
  plan_of top e = Writes oid u t c -> Str.strip u = u.
Proof.
  unfold plan_of. destruct e as [it|]; [|discriminate].
  destruct (has_oid it); [|discriminate].
  unfold entry_username.
  destruct (py_or (it_username it) (py_or (Some (JStr top)) (JStr "")))
    as [x|]; simpl; [|discriminate].
  destruct (bound_text (entry_fix_text it)); [|discriminate].
  intros E. injection E as _ <- _ _. apply strip_idem.
Qed.

(** What a user saves for an item is what the user is shown for it: after
    a batch of one entry that is written, and provided the item has usable
    text, stays under the quota with the user's row counted and is not
    hidden by hideConfirmed, the item has a position in the eligible
    sequence of the user the entry was saved under, and every listing for
    that user whose page covers the position returns the item at its place
    in the page, with the flag of the entry and with its text (the
    recognized text when the entry's text is empty). *)
Theorem saved_entry_is_listed_back (db : database) (f : item) (e : element)
  (user : option json) (top oid u text : string) (c : Z)
  (hideConfirmed : option string) (sc1 : script) (n1 : nat) :
  top_username_of (mk_payload user [e]) = Some top ->
  plan_of top e = Writes oid u text c ->
  In f (full_table1 db) -> id_oid f = Some oid ->
  usable_text (score_audio_input_text f) = true ->
  (o_cnt (output db) (Some oid)
   + (if existsb (same_key oid u) (output db) then 0 else 1) < 3)%nat ->
  (parse_hide_confirmed (page_of None hideConfirmed 1 0) = true -> c <> 1) ->
  healthy_between sc1 n1 (n1 + 4) ->
  let after :=
    tables (snd (api_annotations (Batch (mk_payload user [e])) sc1
                   (mk_session db n1))) in
  exists k,
    nth_error (eligible after u
                 (parse_hide_confirmed (page_of None hideConfirmed 1 0))) k
    = Some (joined f (mk_annotation oid u text c (time_at sc1 (3 + n1)))) /\
    forall (limit offset : int_arg) (sc : script) (n : nat),
      let a := mk_items_args limit offset (Some u) hideConfirmed in
      healthy_between sc n (n + 2) ->
      page_offset a <= Z.of_nat k < page_offset a + page_limit a ->
      exists items e',
        fst (api_items a sc (mk_session after n)) = Done (Items items) /\
        nth_error items (k - Z.to_nat (page_offset a)) = Some e' /\
        e_id e' = oid /\
        e_fixText e' = (if Str.is_empty text then e_inputText e' else text) /\
        e_confirmed e' = negb (c =? 0).
Proof.
  intros Ht Hp Hf Hid Htext Hcnt Hhide H1. cbv zeta.
  destruct (single_written top e _ _ _ _ Hp) as [Hs Hc].
  rewrite (api_annotations_healthy (mk_payload user [e]) top sc1
             (mk_session db n1) Ht Hs)
    by (cbn [data_items trips]; rewrite Hc; intros k Hk; apply H1; lia).
  cbn [fst snd tables output full_table1 trips data_items commit_all].
  rewrite Hp.
  set (now := time_at sc1 (3 + n1)).
  set (o := mk_annotation oid u text c now).
  set (db' := mk_database (full_table1 db)
                (upsert oid u text c now (output db))).
  assert (Hin : In (joined f o)
                  (eligible db' u
                     (parse_hide_confirmed (page_of None hideConfirmed 1 0)))).
  { apply (own_row_eligible_joined db' f o oid); try assumption;
      try reflexivity.
    - simpl. apply upsert_in_row.
    - simpl. rewrite upsert_o_cnt. simpl. rewrite String.eqb_refl. exact Hcnt. }
  apply In_nth_error in Hin. destruct Hin as [k Hk].
  exists k. split; [exact Hk|].
  intros limit offset sc n Hsc Hpage.
  set (a := mk_items_args limit offset (Some u) hideConfirmed) in *.
  assert (Hu : parse_username a = u).
  { unfold parse_username, a. cbn [arg_username].
    rewrite str_or_some_empty. apply (written_user_stripped top e oid u text c Hp). }
  assert (Hk' : nth_error (eligible (tables (mk_session db' n))
                             (parse_username a) (parse_hide_confirmed a)) k
                = Some (joined f o)) by (rewrite Hu; exact Hk).
  destruct (covered_row_is_listed a sc (mk_session db' n) k (joined f o) Hk'
              Hsc Hpage) as [items [E Hn]].
  exists items. eexists. split; [exact E|]. split; [exact Hn|].
  unfold enrich, joined. simpl. rewrite Hid. repeat split.
Qed.

Lemma saved_entry_is_listed_back_witness :
  exists items e,
    fst (api_items (list_for (Some "alice")) (always 8)
           (mk_session
              (tables (snd (api_annotations
                              (Batch (mk_payload (str (" alice" ++ wide_space))
                                        [Obj plain_entry]))
                              (always 7)
                              (mk_session
                                 (mk_database
                                    [mk_item (Some "41") None (Some "a");
                                     mk_item (Some "43") None (Some "c")] [])
                                 0)))) 0))
    = Done (Items items) /\
    nth_error items 1 = Some e /\
    e_id e = "43" /\ e_fixText e = "hi" /\ e_confirmed e = false.
Proof.
  destruct (saved_entry_is_listed_back
              (mk_database [mk_item (Some "41") None (Some "a");
                            mk_item (Some "43") None (Some "c")] [])
              (mk_item (Some "43") None (Some "c")) (Obj plain_entry)
              (str (" alice" ++ wide_space)) "alice" "43" "alice" "hi" 0 None
              (always 7) 0) as [k [Hk H]].
  - reflexivity.
  - reflexivity.
  - simpl. auto.
  - reflexivity.
  - reflexivity.
  - vm_compute. lia.
  - discriminate.
  - intros j _. discriminate.
  - assert (Ek : k = 1%nat).
    { destruct k as [|[|k]]; [discriminate Hk | reflexivity|].
      vm_compute in Hk. destruct k; discriminate Hk. }
    subst k.
    destruct (H ArgAbsent ArgAbsent (always 8) 0%nat) as [items [e H']].
    + intros j _. discriminate.
    + vm_compute. split; [discriminate | reflexivity].
    + exists items, e. exact H'.
Defined.

(* ------------------------------------------------------------------ *)
(** ** The eligible sequence *)

Lemma filter_same_key_le_one (x u : string) (out : list annotation) :
  pk_unique out -> (List.length (filter (same_key x u) out) <= 1)%nat.
Proof.
  intros H. destruct (in_keys_dec (x, u) (keys out)) as [Hin|Hout].
  - rewrite (key_count_one x u out H Hin). lia.
  - destruct (filter (same_key x u) out) as [|o l] eqn:F; [simpl; lia|].
    exfalso. apply Hout.
    assert (Ho : In o (filter (same_key x u) out)) by (rewrite F; now left).
    apply filter_In in Ho. destruct Ho as [Ho Hk].
    apply same_key_true in Hk. rewrite <- Hk.
    unfold keys. apply in_map_iff. exists o. auto.
Qed.

(** Under the primary key the user has one row at most for an item. *)
Lemma o_user_at_most_one (out : list annotation) (u : string) (f : item) :
  pk_unique out -> (List.length (o_user out u f) <= 1)%nat.
Proof.
  intros H. unfold o_user. destruct (id_oid f) as [x|].
  - apply (filter_same_key_le_one x u out H).
  - simpl. induction out as [|o out IH]; simpl; [lia|].
    apply IH. unfold pk_unique in *. simpl in H.
    inversion H; assumption.
Qed.

Lemma joined_rows_of_item (out : list annotation) (u : string) (hide : bool)
  (f : item) :
  pk_unique out ->
  map item_of_row
      (filter (where_clause out hide) (left_join f (o_user out u f)))
  = if keep_item out u hide f then [f] else [].
Proof.
  intros H. pose proof (o_user_at_most_one out u f H) as Hlen.
  unfold keep_item, own_confirmed.
  destruct (o_user out u f) as [|o [|o' l]]; simpl in Hlen; [| |lia].
  - destruct f as [fid path text]. simpl. unfold where_clause. simpl.
    destruct (usable_text text); simpl; [|reflexivity].
    destruct (o_cnt out fid <? 3)%nat; simpl; [|reflexivity].
    destruct hide; reflexivity.
  - destruct f as [fid path text]. simpl. unfold where_clause, not_confirmed.
    simpl. rewrite orb_false_r.
    destruct (usable_text text); simpl; [|reflexivity].
    destruct (o_cnt out fid <? 3)%nat; simpl; [|reflexivity].
    destruct hide; [|reflexivity].
    destruct (o_confirmed o =? 1); reflexivity.
Qed.

Lemma flat_map_singletons {A} (p : A -> bool) (l : list A) :
  flat_map (fun x => if p x then [x] else []) l = filter p l.
Proof.
  induction l as [|x l IH]; simpl; [reflexivity|].
  rewrite IH. destruct (p x); reflexivity.
Qed.

Lemma map_flat_map {A B C} (g : B -> C) (h : A -> list B) (l : list A) :
  map g (flat_map h l) = flat_map (fun x => map g (h x)) l.
Proof.
  induction l as [|x l IH]; simpl; [reflexivity|].
  rewrite map_app, IH. reflexivity.
Qed.

(** Under the primary key of [output] the join multiplies nothing: the
    eligible sequence of a user holds, each once, exactly the items of
    [full_table1] that have usable text, fewer than 3 rows of [output], and
    (with hideConfirmed) no row of the user with confirmed = 1. *)
Theorem eligible_is_the_filtered_items (db : database) (username : string)
  (hide_confirmed : bool) :
  pk_unique (output db) ->
  Permutation (map item_of_row (eligible db username hide_confirmed))
              (filter (keep_item (output db) username hide_confirmed)
                      (full_table1 db)) /\
  (List.length (eligible db username hide_confirmed)
   <= List.length (full_table1 db))%nat.
Proof.
  intros H.
  assert (P : Permutation
                (map item_of_row (eligible db username hide_confirmed))
                (filter (keep_item (output db) username hide_confirmed)
                   (full_table1 db))).
  { unfold eligible.
    rewrite <- (order_by_perm (from_where db username hide_confirmed)).
    unfold from_where. rewrite map_flat_map.
    rewrite <- flat_map_singletons.
    rewrite (flat_map_ext _ _ (fun f => joined_rows_of_item (output db)
                                          username hide_confirmed f H)).
    reflexivity. }
  split; [exact P|].
  rewrite <- (length_map item_of_row), (Permutation_length P).
  apply filter_length_le.
Qed.

Lemma eligible_is_the_filtered_items_witness :
  Permutation
    (map item_of_row (eligible two_db "alice" true))
    (filter (keep_item (output two_db) "alice" true) (full_table1 two_db)) /\
  eligible two_db "bob" true
  = [mk_row (Some "42") (Some "/clips/42.wav") (Some "hello")
       (Some "hello!") (Some 0)].
Proof.
  split; [|reflexivity].
  apply (eligible_is_the_filtered_items two_db "alice" true).
  unfold pk_unique. simpl. repeat constructor; simpl; intuition discriminate.
Defined.

(* ------------------------------------------------------------------ *)
(** ** The credential check *)

(** A login whose user name is a string (or absent, or falsy) that is empty
    after trimming, or whose password is absent or falsy, is refused with
    400 before the store is asked anything. *)
Theorem login_requires_both_fields (login : list credential)
  (u : option json) (p : option secret) (name : string) (sc : script)
  (s : session) :
  strip_of (py_or u (JStr "")) = Some name ->
  name = "" \/ secret_truthy (secret_or_empty p) = false ->
  api_login login (LoginFields u p) sc s = (Done (LoginError 400), s).
Proof.
  intros Hu H. unfold api_login, bind at 1. rewrite Hu. simpl.
  destruct H as [-> | ->]; simpl; [reflexivity|].
  rewrite orb_true_r. reflexivity.
Qed.

Lemma login_requires_both_fields_witness :
  api_login [mk_credential "alice" "secret"]
    (LoginFields (str (wide_space ++ " " ++ nbsp)) (Some (Secret "secret")))
    never
    (mk_session fresh_db 0)
  = (Done (LoginError 400), mk_session fresh_db 0).
Proof.
  apply (login_requires_both_fields [mk_credential "alice" "secret"]
           (str (wide_space ++ " " ++ nbsp)) (Some (Secret "secret")) "" never
           (mk_session fresh_db 0)).
  - reflexivity.
  - left. reflexivity.
Defined.

Lemma in_login_table (login : list credential) (u p : string) :
  existsb (fun c => String.eqb (l_username c) u && String.eqb (l_password c) p)
          login = true
  <-> In (mk_credential u p) login.
Proof.
  rewrite existsb_exists. split.
  - intros [[cu cp] [Hin Hc]]. simpl in Hc.
    apply andb_prop in Hc. destruct Hc as [E1 E2].
    apply String.eqb_eq in E1. apply String.eqb_eq in E2. subst. exact Hin.
  - intros Hin. exists (mk_credential u p). split; [exact Hin|].
    simpl. rewrite !String.eqb_refl. reflexivity.
Qed.

(** A login whose user name is a string that is not blank and whose
    password is a non-empty string, when the store serves the connect and
    the query, succeeds if and only if [login] has a row with the trimmed
    user name and the password as given (the password is not trimmed), and
    is answered 401 otherwise; when the store refuses the connect or the
    query, the answer is 500. *)
Theorem login_checks_credentials (login : list credential)
  (name password : string) (sc : script) (s : session) :
  let data := LoginFields (Some (JStr name)) (Some (Secret password)) in
  Str.strip name <> "" -> password <> "" ->
  (healthy_between sc (trips s) (trips s + 2) ->
   (In (mk_credential (Str.strip name) password) login ->
    fst (api_login login data sc s) = Done LoginOk) /\
   (~ In (mk_credential (Str.strip name) password) login ->
    fst (api_login login data sc s) = Done (LoginError 401))) /\
  (sc (trips s) = Refused \/ sc (S (trips s)) = Refused ->
   fst (api_login login data sc s) = Done (LoginError 500)).
Proof.
  cbv zeta. intros Hu Hp.
  assert (Hname : name <> "") by (intros ->; apply Hu; reflexivity).
  assert (Eu : py_or (Some (JStr name)) (JStr "") = JStr name)
    by (unfold py_or, truthy; rewrite (not_empty_is_empty _ Hname);
        reflexivity).
  assert (Ep : secret_or_empty (Some (Secret password)) = Secret password)
    by (unfold secret_or_empty, secret_truthy;
        rewrite (not_empty_is_empty _ Hp); reflexivity).
  assert (E : api_login login
                (LoginFields (Some (JStr name)) (Some (Secret password))) sc s
              = try_except
                  (get_conn ;;;
                   row <- execute_login login (Str.strip name)
                            (Secret password) ;;
                   ret (if row then LoginOk else LoginError 401))
                  (ret (LoginError 500)) sc s).
  { unfold api_login, bind at 1. rewrite Eu, Ep.
    cbn [strip_of attempt ret secret_truthy].
    rewrite (not_empty_is_empty _ Hu), (not_empty_is_empty _ Hp).
    reflexivity. }
  rewrite E. clear E.
  run_store.
  split.
  - intros H.
    destruct (sc (trips s)) eqn:E0;
      [exfalso; apply (H (trips s)); [lia|exact E0]|].
    simpl.
    destruct (sc (S (trips s))) eqn:E1;
      [exfalso; apply (H (S (trips s))); [lia|exact E1]|].
    simpl. split; intros Hin.
    + apply in_login_table in Hin. rewrite Hin. reflexivity.
    + destruct (existsb _ login) eqn:E; [|reflexivity].
      apply in_login_table in E. contradiction.
  - intros H.
    destruct (sc (trips s)) eqn:E0; [reflexivity|].
    simpl.
    destruct (sc (S (trips s))) eqn:E1; [reflexivity|].
    destruct H; discriminate.
Qed.

Lemma login_checks_credentials_witness :
  fst (api_login [mk_credential "alice" " secret"]
         (LoginFields (str (wide_space ++ "alice" ++ nbsp))
            (Some (Secret " secret")))
         (always 5) (mk_session fresh_db 0)) = Done LoginOk /\
  fst (api_login [mk_credential "alice" "secret"]
         (LoginFields (str (wide_space ++ "alice" ++ nbsp))
            (Some (Secret " secret")))
         (always 5) (mk_session fresh_db 0)) = Done (LoginError 401).
Proof.
  split.
  - apply (login_checks_credentials [mk_credential "alice" " secret"]
             (wide_space ++ "alice" ++ nbsp) " secret" (always 5)
             (mk_session fresh_db 0));
      [discriminate | discriminate | intros k _; discriminate | simpl; auto].
  - apply (login_checks_credentials [mk_credential "alice" "secret"]
             (wide_space ++ "alice" ++ nbsp) " secret" (always 5)
             (mk_session fresh_db 0));
      [discriminate | discriminate | intros k _; discriminate |].
    simpl. intros [H|[]]. discriminate H.
Defined.
